(** * ScarePrank: the secret code, its two partial reveals, the emergency
      quiz, the geolocation fallback and the close/minimize guard.

    A shallow embedding of [matrix_prank_complete.py].  Python values are
    modelled as follows.
    - [str] is [string]; a character stands for the code point of the same
      number (the code points below 256).
    - [int] is [Z].
    - A list updated by index ([s[pos] = ...]) is a [list] with stdpp's
      lookup and insert; an index out of range is the explicit [IndexError].
    - Everything the program obtains from outside (the draws of [random],
      the replies typed into dialogs, the bodies served by the geolocation
      providers) is an argument of the function that consumes it.
    - The dialogs a function shows are returned as a log of [ui_event]s. *)

From Stdlib Require Import ZArith String Ascii List Lia Bool.
From stdpp Require Import base tactics option list sorting gmap strings.

Local Open Scope string_scope.
Local Open Scope Z_scope.
Local Open Scope list_scope.

(** ** Python strings *)

Module PyStr.

(** [str.isspace] on one character: TAB..CR, FS..US, SPACE, NEL, NBSP. *)
Definition is_space (c : ascii) : bool :=
  let n := Z.of_N (N_of_ascii c) in
  ((9 <=? n) && (n <=? 13)) || ((28 <=? n) && (n <=? 32))
  || (n =? 133) || (n =? 160).

Fixpoint lstrip (s : string) : string :=
  match s with
  | String c s' => if is_space c then lstrip s' else s
  | EmptyString => EmptyString
  end.

Definition rstrip (s : string) : string :=
  String.rev (lstrip (String.rev s)).

(** [s.strip()] *)
Definition strip (s : string) : string := rstrip (lstrip s).

(** [str.lower] on one character: A..Z and the accented capitals. *)
Definition lower_char (c : ascii) : ascii :=
  let n := Z.of_N (N_of_ascii c) in
  if ((65 <=? n) && (n <=? 90))
     || ((192 <=? n) && (n <=? 222) && negb (n =? 215))
  then ascii_of_N (Z.to_N (n + 32)) else c.

(** [s.lower()] *)
Fixpoint lower (s : string) : string :=
  match s with
  | String c s' => String (lower_char c) (lower s')
  | EmptyString => EmptyString
  end.

(** Truth value of an [Optional[str]]: [None] and [""] are false. *)
Definition truthy (o : option string) : bool :=
  match o with
  | Some s => negb (String.eqb s "")
  | None => false
  end.

Definition is_digit (c : ascii) : bool :=
  let n := Z.of_N (N_of_ascii c) in (48 <=? n) && (n <=? 57).

Definition digit_char (d : Z) : ascii := ascii_of_N (Z.to_N (48 + d)).

(** Decimal digits of a non-negative integer, most significant first. *)
Fixpoint digits_aux (fuel : nat) (n : Z) (acc : string) : string :=
  match fuel with
  | O => acc
  | S fuel' =>
      let acc' := String (digit_char (n mod 10)) acc in
      if n <? 10 then acc' else digits_aux fuel' (n / 10) acc'
  end.

Definition digits (n : Z) : string :=
  digits_aux (S (Z.to_nat (Z.log2 n))) n "".

Fixpoint zeros (k : nat) : string :=
  match k with
  | O => ""
  | S k' => String "0" (zeros k')
  end.

(** ["{:0Wd}".format(n)]: the sign, then zeros up to width [W], then the
    digits. *)
Definition format_0d (width : nat) (n : Z) : string :=
  let sign := if n <? 0 then "-" else "" in
  let body := digits (Z.abs n) in
  let used := (String.length sign + String.length body)%nat in
  sign +:+ zeros (width - used) +:+ body.

(** [int(s)] on a string of decimal digits. *)
Definition decimal_value (s : string) : Z :=
  fold_left (fun acc c => 10 * acc + (Z.of_N (N_of_ascii c) - 48))
            (list_ascii_of_string s) 0.

End PyStr.

(** ** Secret code *)

(** [new_secret_code], given the draw [r] of [random.randint(0, 9999)]. *)
Definition new_secret_code (r : Z) : string := PyStr.format_0d 4 r.

Definition all_digits (s : string) : bool :=
  forallb PyStr.is_digit (list_ascii_of_string s).

(** ** Exceptions and the user interface *)

Inductive exn : Type :=
| IndexError
| AttributeError
| URLError.

(** Outcome of a Python expression or statement that may raise. *)
Inductive py_result (A : Type) : Type :=
| Ok (a : A)
| Raise (e : exn).
Arguments Ok {A} a.
Arguments Raise {A} e.

Definition py_bind {A B : Type} (m : py_result A) (k : A -> py_result B)
  : py_result B :=
  match m with
  | Ok a => k a
  | Raise e => Raise e
  end.

#[global] Instance py_result_bind : MBind py_result :=
  fun A B k m => py_bind m k.
#[global] Instance py_result_ret : MRet py_result := fun A a => Ok a.

Inductive window : Type :=
| Root
| Overlay (id : nat)
| Notepad (id : nat).

(** What a function does to the screen, in program order. *)
Inductive ui_event : Type :=
| MsgInfo (title text : string)
| MsgWarning (title text : string)
| MsgError (title text : string)
| AskYesNo (title text : string)
| AskString (title prompt : string)
| BringToFront (w : window)
| CreateWindow (w : window)
| DestroyWindow (w : window)
| AfterDeiconify (ms : Z)
| AfterFinish (ms : Z) (w : window)
| OpenBrowserTab (query : string).

(** How a flow ends: it returns to the event loop, or [os._exit] ends the
    process. *)
Inductive flow_end : Type :=
| Returned
| ProcessExit (status : Z).

(** [str(n)] *)
Definition str_of_int (n : Z) : string := PyStr.format_0d 0 n.

(** ** Quiz loop shared by the trivia helper and the emergency quiz *)

(** [ans and ans.strip().lower() == a.lower()] *)
Definition answer_ok (ans : option string) (a : string) : bool :=
  PyStr.truthy ans &&
  match ans with
  | Some s => String.eqb (PyStr.lower (PyStr.strip s)) (PyStr.lower a)
  | None => false
  end.

(** [random.sample(pool, k)], given the positions [idx] it drew. *)
Definition sample {A : Type} (pool : list A) (idx : list nat) : list A :=
  omap (fun i => pool !! i) idx.

(** What [random.sample] guarantees about the positions: [k] of them, each
    inside the pool, none twice. *)
Definition is_sample {A : Type} (pool : list A) (k : nat) (idx : list nat)
  : Prop :=
  length idx = k /\ NoDup idx /\ Forall (fun i => (i < length pool)%nat) idx.

(** The loop [for q, a in picks: ans = askstring(title, q); ...].  The reply
    to the [i]-th question of this loop is [answers i].  Returns the final
    value of [correct] and the dialogs shown. *)
Fixpoint ask_all (title : string) (picks : list (string * string))
    (answers : nat -> option string) (i : nat) (correct : Z)
  : Z * list ui_event :=
  match picks with
  | [] => (correct, [])
  | (q, a) :: rest =>
      let correct' := if answer_ok (answers i) a then correct + 1 else correct in
      let '(c, log) := ask_all title rest answers (S i) correct' in
      (c, AskString title q :: log)
  end.

(** ** SecretHelpers *)

Record SecretHelpers : Type := {
  secret : string;
  clue_positions : list nat;
  trivia_positions : list nat
}.

(** [sorted(l)] on positions. *)
Definition sorted (l : list nat) : list nat := merge_sort le l.

(** [SecretHelpers.__init__], given the order [shuffled] that
    [random.shuffle] left in [all_positions]. *)
Definition SecretHelpers_init (secret_code : string) (shuffled : list nat)
  : SecretHelpers :=
  let clue := sorted (take 2 shuffled) in
  {| secret := secret_code;
     clue_positions := clue;
     trivia_positions :=
       sorted (filter (fun p => p ∉ clue) shuffled) |}.

(** [s[pos] = secret[pos]] for each [pos], starting from [s]. *)
Fixpoint reveal_into (secret : string) (positions : list nat) (s : list ascii)
  : py_result (list ascii) :=
  match positions with
  | [] => Ok s
  | pos :: rest =>
      match list_ascii_of_string secret !! pos with
      | None => Raise IndexError
      | Some c =>
          if (pos <? length s)%nat
          then reveal_into secret rest (<[pos := c]> s)
          else Raise IndexError
      end
  end.

(** The local [pattern] of [clue_finder] and of [trivia_helper]:
    [s = list("****")], the loop, then ["".join(s)]. *)
Definition pattern_of (secret : string) (positions : list nat)
  : py_result string :=
  s ← reveal_into secret positions (list_ascii_of_string "****");
  Ok (string_of_list_ascii s).

Definition clue_finder (self : SecretHelpers) : py_result (list ui_event) :=
  pattern ← pattern_of (secret self) (clue_positions self);
  Ok [MsgInfo "Clue Finder" ("Clue revealed: " +:+ pattern);
      BringToFront Root].

Definition trivia_qpool : list (string * string) :=
  [("What is the atomic number of gold?", "79");
   ("Which planet has the most moons (as of 2023)?", "saturn");
   ("What is the capital city of Peru?", "lima");
   ("In computing, what does 'CPU' stand for?", "central processing unit");
   ("What is the approximate value of pi to 2 decimal places?", "3.14");
   ("What year did the Berlin Wall fall?", "1989");
   ("Which element has chemical symbol 'Na'?", "sodium");
   ("Who wrote '1984'?", "george orwell");
   ("What is the largest ocean on Earth?", "pacific");
   ("What language is primarily spoken in Brazil?", "portuguese")].

(** The value of [correct] after the loop of [trivia_helper]. *)
Definition trivia_correct (idx : list nat) (answers : nat -> option string)
  : Z :=
  fst (ask_all "Trivia Helper" (sample trivia_qpool idx) answers 0 0).

(** [trivia_helper], given the positions [idx] drawn by [random.sample] and
    the replies typed into the five dialogs. *)
Definition trivia_helper (self : SecretHelpers) (idx : list nat)
    (answers : nat -> option string) : py_result (list ui_event) :=
  let picks := sample trivia_qpool idx in
  let '(correct, asked) := ask_all "Trivia Helper" picks answers 0 0 in
  if correct =? 5 then
    pattern ← pattern_of (secret self) (trivia_positions self);
    Ok (asked ++ [MsgInfo "Trivia Helper" ("Passed! Revealed: " +:+ pattern);
                  BringToFront Root])
  else
    Ok (asked ++ [MsgInfo "Trivia Helper"
                    ("You got " +:+ str_of_int correct +:+ "/5 correct.");
                  BringToFront Root]).

(** ** Emergency quiz *)

Definition emergency_qpool : list (string * string) :=
  [("What is the capital of Iceland?", "reykjavik");
   ("What year did the Titanic sink?", "1912");
   ("What is the chemical formula for table salt?", "nacl");
   ("Who painted the Mona Lisa?", "leonardo da vinci");
   ("Which gas makes up ~78% of Earth's atmosphere?", "nitrogen");
   ("What is the largest planet in our solar system?", "jupiter");
   ("What is the square root of 144?", "12");
   ("Which metal has the highest electrical conductivity?", "silver");
   ("In which country is the Taj Mahal located?", "india");
   ("Who proposed the theory of general relativity?", "albert einstein");
   ("What is the freezing point of water in Celsius?", "0");
   ("Which city hosted the 2012 Summer Olympics?", "london");
   ("What currency is used in Japan?", "yen");
   ("What is the chemical symbol for iron?", "fe");
   ("Which scientist discovered penicillin?", "alexander fleming")].

(** The value of [correct] after the loop of [emergency_quiz_flow]. *)
Definition emergency_correct (idx : list nat) (answers : nat -> option string)
  : Z :=
  fst (ask_all "Emergency Quiz" (sample emergency_qpool idx) answers 0 0).

(** [code and code.strip() == secret_code] *)
Definition code_accepted (code : option string) (secret_code : string) : bool :=
  PyStr.truthy code &&
  match code with
  | Some s => String.eqb (PyStr.strip s) secret_code
  | None => false
  end.

Definition ask_code : ui_event :=
  AskString "Enter Code" "Enter the 4-digit secret code:".

Definition opening : ui_event :=
  AskYesNo "Emergency" "Start the emergency quiz (10 questions)?".

(** [emergency_quiz_flow], given the reply [confirm] to the yes/no dialog,
    the positions [idx] drawn by [random.sample], the replies to the ten
    questions and the reply [code] to the code dialog.  The dash in the text
    of the "Perfect" dialog is written here as a hyphen. *)
Definition emergency_quiz_flow (secret_code : string) (confirm : bool)
    (idx : list nat) (answers : nat -> option string) (code : option string)
  : flow_end * list ui_event :=
  if negb confirm then (Returned, [opening; BringToFront Root])
  else
    let picks := sample emergency_qpool idx in
    let '(correct, asked) := ask_all "Emergency Quiz" picks answers 0 0 in
    let wrong := 10 - correct in
    if wrong =? 0 then
      let prompt :=
        [MsgInfo "Perfect" "All correct - enter the 4-digit secret code now.";
         ask_code] in
      if code_accepted code secret_code then
        (ProcessExit 0,
         opening :: asked ++ prompt ++
           [MsgInfo "Unlocked" "Correct code! Escape key: Ctrl + Shift + K";
            DestroyWindow Root])
      else
        (Returned,
         opening :: asked ++ prompt ++ [MsgError "Wrong" "Incorrect code."])
    else
      (Returned,
       opening :: asked ++
         [MsgInfo "Emergency Result"
            ("You got " +:+ str_of_int wrong +:+ "/10 wrong.");
          BringToFront Root]).

(** ** IP geolocation *)

(** A value produced by [json.loads].  Only whether a number is zero is ever
    observed. *)
#[warnings="-register-all"]
Inductive json : Type :=
| JNull
| JBool (b : bool)
| JNumber (is_zero : bool)
| JString (s : string)
| JArray (items : list json)
| JObject (fields : list (string * json)).

(** What one provider does when asked: [urlopen] or [read] raises (timeout,
    refused connection, HTTP error), or a body arrives on which [json.loads]
    gives [parsed] ([None] when it raises). *)
Inductive response : Type :=
| Unreachable
| Body (parsed : option json).

Definition json_truthy (v : json) : bool :=
  match v with
  | JNull => false
  | JBool b => b
  | JNumber is_zero => negb is_zero
  | JString s => negb (String.eqb s "")
  | JArray items => negb (bool_decide (items = []))
  | JObject fields => negb (bool_decide (length fields = 0%nat))
  end.

(** The value under [key]; the keys of a dict are distinct. *)
Fixpoint dict_lookup (fields : list (string * json)) (key : string)
  : option json :=
  match fields with
  | [] => None
  | (k, v) :: rest => if String.eqb k key then Some v else dict_lookup rest key
  end.

(** [data.get(key)]: only a dict has the method. *)
Definition json_get (data : json) (key : string) : py_result json :=
  match data with
  | JObject fields => Ok (default JNull (dict_lookup fields key))
  | _ => Raise AttributeError
  end.

(** [v.strip()]: only a string has the method. *)
Definition json_strip (v : json) : py_result string :=
  match v with
  | JString s => Ok (PyStr.strip s)
  | _ => Raise AttributeError
  end.

(** [(data.get(k1) or data.get(k2) or "").strip()] *)
Definition first_field (data : json) (k1 k2 : string) : py_result string :=
  a ← json_get data k1;
  if json_truthy a then json_strip a
  else
    b ← json_get data k2;
    if json_truthy b then json_strip b else json_strip (JString "").

Definition nonempty (s : string) : bool := negb (String.eqb s "").

(** The body of the [try] for one provider: [Ok (Some r)] is [return r],
    [Ok None] reaches the end of the body, [Raise e] leaves it by [e]. *)
Definition try_service (r : response) : py_result (option (string * string)) :=
  match r with
  | Unreachable => Raise URLError
  | Body parsed =>
      let data := default (JObject []) parsed in
      city ← first_field data "city" "region";
      country ← first_field data "country_name" "country";
      if nonempty city && nonempty country then Ok (Some (city, country))
      else if nonempty country then Ok (Some ("", country))
      else Ok None
  end.

Definition services : list string :=
  ["https://ipapi.co/json/"; "https://ipinfo.io/json"; "https://ipwho.is/"].

(** The [for url in services] loop with its [except Exception: continue],
    then the final [return "", "Unknown"].  [net url] is what the provider
    behind [url] does.  Returns the result with the providers contacted, in
    order. *)
Fixpoint fetch_loop (net : string -> response) (urls : list string)
  : py_result (string * string) * list string :=
  match urls with
  | [] => (Ok ("", "Unknown"), [])
  | url :: rest =>
      match try_service (net url) with
      | Ok (Some r) => (Ok r, [url])
      | Ok None | Raise _ =>
          let '(r, contacted) := fetch_loop net rest in (r, url :: contacted)
      end
  end.

Definition fetch_ip_location (net : string -> response)
  : py_result (string * string) * list string :=
  fetch_loop net services.

(** A provider fails when its [try] body does not return. *)
Definition provider_fails (r : response) : bool :=
  match try_service r with
  | Ok (Some _) => false
  | _ => true
  end.

(** ** The main window and its close/minimize guard *)

(** The attributes [run_app] keeps on [root], the module global
    [SECRET_CODE], the helpers object, the overlay windows that exist, the
    pending [finish] timers (as the overlay each one closes over), and
    whether the process is still alive. *)
Record app_state : Type := {
  SECRET_CODE : string;
  helpers : SecretHelpers;
  attempts : Z;
  overlay_open : bool;
  active_overlay : option window;
  active_notepad : option window;
  overlays : list nat;
  next_window : nat;
  finish_timers : list nat;
  alive : bool
}.

Definition set_attempts (n : Z) (st : app_state) : app_state :=
  {| SECRET_CODE := SECRET_CODE st; helpers := helpers st;
     attempts := n; overlay_open := overlay_open st;
     active_overlay := active_overlay st; active_notepad := active_notepad st;
     overlays := overlays st; next_window := next_window st;
     finish_timers := finish_timers st; alive := alive st |}.

(** [bring_to_front(win)]; [win is None] returns at once. *)
Definition bring_to_front (win : option window) : list ui_event :=
  match win with
  | None => []
  | Some w => [BringToFront w]
  end.

(** [show_overlay_then_reset(root, duration_ms)] up to its return; the
    nested [finish] runs later, from the timer.  The labels of the overlay
    and the dot animation are not part of the log. *)
Definition show_overlay_then_reset (duration_ms : Z) (st : app_state)
  : app_state * list ui_event :=
  if overlay_open st then (st, bring_to_front (active_overlay st))
  else
    let id := next_window st in
    ({| SECRET_CODE := SECRET_CODE st; helpers := helpers st;
        attempts := attempts st; overlay_open := true;
        active_overlay := Some (Overlay id);
        active_notepad := active_notepad st;
        overlays := overlays st ++ [id]; next_window := S id;
        finish_timers := finish_timers st ++ [id]; alive := alive st |},
     [CreateWindow (Overlay id); AfterFinish duration_ms (Overlay id);
      BringToFront (Overlay id)]).

(** The nested [finish] of the overlay [id]. *)
Definition finish (id : nat) (st : app_state) : app_state * list ui_event :=
  ({| SECRET_CODE := SECRET_CODE st; helpers := helpers st;
      attempts := 0; overlay_open := false;
      active_overlay := None; active_notepad := active_notepad st;
      overlays := filter (fun w => w ≠ id) (overlays st);
      next_window := next_window st;
      finish_timers := finish_timers st; alive := alive st |},
   [DestroyWindow (Overlay id); BringToFront Root]).

Definition warn_once : list ui_event :=
  [MsgWarning "Don't" "Don't do this again"; BringToFront Root].

(** [on_close_attempt]; [draw] is what [random.randint(9, 17)] gives when it
    is called. *)
Definition on_close_attempt (draw : Z) (st : app_state) : app_state * list ui_event :=
  let st1 := set_attempts (attempts st + 1) st in
  if attempts st1 =? 1 then (st1, warn_once)
  else show_overlay_then_reset (draw * 1000) st1.

(** [on_unmap]; [iconic] is [root.state() == "iconic"]. *)
Definition on_unmap (iconic : bool) (draw : Z) (st : app_state)
  : app_state * list ui_event :=
  if iconic then
    let st1 := set_attempts (attempts st + 1) st in
    if attempts st1 =? 1 then (st1, AfterDeiconify 50 :: warn_once)
    else
      let '(st2, log) := show_overlay_then_reset (draw * 1000) st1 in
      (st2, AfterDeiconify 50 :: log)
  else (st, []).

(** Tk forgets a timer once it has fired. *)
Fixpoint remove_first (id : nat) (l : list nat) : list nat :=
  match l with
  | [] => []
  | x :: rest => if bool_decide (x = id) then rest else x :: remove_first id rest
  end.

Definition drop_timer (id : nat) (st : app_state) : app_state :=
  {| SECRET_CODE := SECRET_CODE st; helpers := helpers st;
     attempts := attempts st; overlay_open := overlay_open st;
     active_overlay := active_overlay st; active_notepad := active_notepad st;
     overlays := overlays st; next_window := next_window st;
     finish_timers := remove_first id (finish_timers st);
     alive := alive st |}.

Definition exit_process (st : app_state) : app_state :=
  {| SECRET_CODE := SECRET_CODE st; helpers := helpers st;
     attempts := attempts st; overlay_open := overlay_open st;
     active_overlay := active_overlay st; active_notepad := active_notepad st;
     overlays := overlays st; next_window := next_window st;
     finish_timers := finish_timers st; alive := false |}.

(** [yes_flow]: the confirmation, the lookup, the browser tab when a city is
    known, the notepad.  The text typed into the notepad is not part of the
    log. *)
Definition yes_flow (confirm : bool) (net : string -> response) (st : app_state)
  : py_result (app_state * list ui_event) :=
  let opening := AskYesNo "Confirm" "Are you sure you want to answer YES?" in
  if negb confirm then Ok (st, [opening; BringToFront Root])
  else
    '(city, country) ← fst (fetch_ip_location net);
    let tab := if nonempty city then [OpenBrowserTab city] else [] in
    let id := next_window st in
    Ok ({| SECRET_CODE := SECRET_CODE st; helpers := helpers st;
           attempts := attempts st; overlay_open := overlay_open st;
           active_overlay := active_overlay st;
           active_notepad := Some (Notepad id);
           overlays := overlays st; next_window := S id;
           finish_timers := finish_timers st; alive := alive st |},
        opening :: tab ++ [CreateWindow (Notepad id); BringToFront (Notepad id)]).

(** What the event loop can deliver, with the outside input each handler
    consumes. *)
Inductive event : Type :=
| WmDeleteWindow (draw : Z)
| Unmap (iconic : bool) (draw : Z)
| FinishTimer (id : nat)
| ClickClueFinder
| ClickTriviaHelper (idx : list nat) (answers : nat -> option string)
| ClickEmergency (confirm : bool) (idx : list nat)
    (answers : nat -> option string) (code : option string)
| ClickYes (confirm : bool) (net : string -> response)
| ClickNo
| PanicKey.

(** An exception that leaves a handler is reported by Tk and the event loop
    goes on. *)
Definition guarded (st : app_state) (r : py_result (app_state * list ui_event))
  : app_state * list ui_event :=
  match r with
  | Ok x => x
  | Raise _ => (st, [])
  end.

(** One turn of [root.mainloop()]. *)
Definition step (e : event) (st : app_state) : app_state * list ui_event :=
  if negb (alive st) then (st, [])
  else
    match e with
    | WmDeleteWindow draw => on_close_attempt draw st
    | Unmap iconic draw => on_unmap iconic draw st
    | FinishTimer id =>
        if bool_decide (id ∈ finish_timers st)
        then finish id (drop_timer id st)
        else (st, [])
    | ClickClueFinder =>
        guarded st (log ← clue_finder (helpers st); Ok (st, log))
    | ClickTriviaHelper idx answers =>
        guarded st (log ← trivia_helper (helpers st) idx answers; Ok (st, log))
    | ClickEmergency confirm idx answers code =>
        match emergency_quiz_flow (SECRET_CODE st) confirm idx answers code with
        | (Returned, log) => (st, log)
        | (ProcessExit _, log) => (exit_process st, log)
        end
    | ClickYes confirm net => guarded st (yes_flow confirm net st)
    | ClickNo =>
        (st, [MsgInfo "Haha" "haha get pranked, find another way!";
              BringToFront Root])
    | PanicKey => (exit_process st, [MsgInfo "Killed" "You killed the menu."])
    end.

(** The state and the screen log after a sequence of events. *)
Fixpoint run (evs : list event) (st : app_state) : app_state * list (list ui_event) :=
  match evs with
  | [] => (st, [])
  | e :: rest =>
      let '(st1, log) := step e st in
      let '(st2, logs) := run rest st1 in
      (st2, log :: logs)
  end.

(** [run_app] up to [root.mainloop()]: [r0] is the draw made when the module
    is loaded, [r1] the draw made by [run_app], [shuffled] the order left by
    [random.shuffle]. *)
Definition run_app (r0 r1 : Z) (shuffled : list nat) : app_state :=
  let module_code := new_secret_code r0 in
  let code := new_secret_code r1 in
  {| SECRET_CODE := code;
     helpers := SecretHelpers_init code shuffled;
     attempts := 0; overlay_open := false;
     active_overlay := None; active_notepad := None;
     overlays := []; next_window := 0%nat;
     finish_timers := []; alive := true |}.

(** The number of overlays a log creates. *)
Definition creates_overlay (e : ui_event) : bool :=
  match e with
  | CreateWindow (Overlay _) => true
  | _ => false
  end.


(** ** Putting two patterns on top of each other *)

(** The character seen at one position when two patterns are overlaid: the
    one that is not the mask. *)
Definition merge_char (x y : ascii) : ascii :=
  if Ascii.eqb x "*" then y else x.

(** The two patterns overlaid, position by position. *)
Definition overlay_patterns (p1 p2 : string) : string :=
  string_of_list_ascii
    (zip_with merge_char (list_ascii_of_string p1) (list_ascii_of_string p2)).

(** The character of [s] at position [i], as [s[i]] reads it. *)
Definition char_at (s : string) (i : nat) : option ascii :=
  list_ascii_of_string s !! i.

(** What the pattern of [code] over [positions] must look like: four
    characters, the one of [code] at each position listed and the mask at
    each other one. *)
Definition masks (code : string) (positions : list nat) (p : string) : Prop :=
  String.length p = 4%nat
  /\ forall i : nat, (i < 4)%nat ->
       char_at p i = if bool_decide (i ∈ positions) then char_at code i
                     else Some "*"%char.

(** A reply left blank, or a dialog cancelled. *)
Definition blank (ans : option string) : Prop :=
  match ans with
  | None => True
  | Some s => PyStr.strip s = ""
  end.

(** The replies of a user who knows every answer of the questions picked. *)
Definition knows_all (pool : list (string * string)) (idx : list nat)
  : nat -> option string :=
  fun i => snd <$> (sample pool idx !! i).

(** ** Vocabulary of the statements *)

(** The dialogs of the quiz loop for [picks]. *)
Definition asks (title : string) (picks : list (string * string))
  : list ui_event :=
  map (fun qa => AskString title qa.1) picks.

(** The string of four characters [a b c d]. *)
Definition code_of (a b c d : ascii) : string :=
  String a (String b (String c (String d ""))).

Definition ten : list Z := [0; 1; 2; 3; 4; 5; 6; 7; 8; 9].

(** The string of the four decimal digits [a b c d]. *)
Definition four (a b c d : Z) : string :=
  code_of (PyStr.digit_char a) (PyStr.digit_char b)
          (PyStr.digit_char c) (PyStr.digit_char d).

(** Everything the statements need about the draw written [a b c d]. *)
Definition code_ok (a b c d : Z) : bool :=
  let r := 1000 * a + 100 * b + 10 * c + d in
  let s := new_secret_code r in
  String.eqb s (four a b c d)
  && (String.length s =? 4)%nat && all_digits s
  && (PyStr.decimal_value s =? r)
  && String.eqb (PyStr.strip s) s.

(** The six ways to split {0,1,2,3} into two sorted pairs. *)
Definition splits : list (list nat * list nat) :=
  [([0; 1], [2; 3]); ([0; 2], [1; 3]); ([0; 3], [1; 2]);
   ([1; 2], [0; 3]); ([1; 3], [0; 2]); ([2; 3], [0; 1])]%nat.

Definition partition_ok (p : list nat * list nat) : Prop :=
  let clue : gset nat := list_to_set p.1 in
  let trivia : gset nat := list_to_set p.2 in
  length p.1 = 2%nat /\ length p.2 = 2%nat
  /\ size clue = 2%nat /\ size trivia = 2%nat
  /\ clue ∩ trivia = ∅
  /\ clue ∪ trivia = list_to_set [0; 1; 2; 3]%nat.

(** What holds of the window attributes between two events: with no
    overlay open there is no overlay window, no pending timer and the
    counter is 0 or 1; with an overlay open there is exactly that one
    overlay window, its one timer, and the counter is at least 2. *)
Definition guard_inv (st : app_state) : Prop :=
  if overlay_open st then
    exists id, overlays st = [id] /\ active_overlay st = Some (Overlay id)
               /\ finish_timers st = [id] /\ 2 <= attempts st
  else
    overlays st = [] /\ active_overlay st = None /\ finish_timers st = []
    /\ (attempts st = 0 \/ attempts st = 1).


(** Ten positions of the emergency pool, and five of the trivia pool with
    the replies of a user who cancels the third dialog. *)
Definition ten_positions : list nat := [2; 3; 4; 5; 6; 7; 8; 9; 10; 11]%nat.

Definition five_positions : list nat := [0; 3; 5; 7; 9]%nat.

Definition third_cancelled : nat -> option string :=
  fun j => if (j =? 2)%nat then None else knows_all trivia_qpool five_positions j.

(** ** The rest of the program *)

(** *** The visual glitch *)

(** The first test of [start_visual_glitch]: it returns at once while an
    overlay is open or once [root.active_notepad] holds a window. *)
Definition glitch_skipped (st : app_state) : bool :=
  overlay_open st
  || match active_notepad st with
     | Some _ => true
     | None => false
     end.

(** What the shake and the flicker do to the main window, in order. *)
Inductive glitch_action : Type :=
| SetGeometry (x y : Z)
| SetBackground (color : string)
| Wait (ms : Z)
| StaticOverlay.

Definition BG : string := "#0b0710".

(** The nested [flicker(i)]; [color i] is what [random.choice] gives at
    step [i]. *)
Fixpoint flicker (fuel : nat) (color : Z -> string) (i : Z)
  : list glitch_action :=
  match fuel with
  | O => []
  | S fuel' =>
      if 3 <=? i then [SetBackground BG; StaticOverlay]
      else SetBackground (color i) :: Wait 70 :: flicker fuel' color (i + 1)
  end.

(** The nested [shake(i)]; [offset i] is the pair of [random.randint(-6, 6)]
    drawn at step [i]. *)
Fixpoint shake (fuel : nat) (x0 y0 : Z) (offset : Z -> Z * Z)
    (color : Z -> string) (i : Z) : list glitch_action :=
  match fuel with
  | O => []
  | S fuel' =>
      if 10 <=? i then SetGeometry x0 y0 :: flicker 4 color 0
      else
        let '(dx, dy) := offset i in
        SetGeometry (x0 + dx) (y0 + dy) :: Wait 20
          :: shake fuel' x0 y0 offset color (i + 1)
  end.

(** [start_visual_glitch] up to the call of [static_overlay]; [(x0, y0)] is
    where the window is when it starts. *)
Definition start_visual_glitch (st : app_state) (x0 y0 : Z)
    (offset : Z -> Z * Z) (color : Z -> string) : list glitch_action :=
  if glitch_skipped st then [] else shake 11 x0 y0 offset color 0.

(** The positions the window is moved to. *)
Definition positions_of (log : list glitch_action) : list (Z * Z) :=
  omap (fun a => match a with
                 | SetGeometry x y => Some (x, y)
                 | _ => None
                 end) log.

(** The styles [static_overlay] chooses from, and the branch its [if] chain
    takes for a style. *)
Definition static_styles : list string :=
  ["cyber"; "tv"; "bars"; "image_glitch"].

Inductive static_branch : Type :=
| DrawMatrix
| DrawCyberRed
| DrawTvStatic
| ImageGlitch
| DrawNothing.

Definition static_branch_of (style : string) : static_branch :=
  if String.eqb style "matrix" then DrawMatrix
  else if String.eqb style "cyber_red" then DrawCyberRed
  else if String.eqb style "tv_static" then DrawTvStatic
  else if String.eqb style "image_glitch" then ImageGlitch
  else DrawNothing.

(** *** bring_to_front, with Tk calls that may raise *)

Inductive tk_call : Type :=
| Lift
| TopmostOn
| FocusForce
| AfterTopmostOff.

(** A computation that makes Tk calls: it is given the number of calls made
    so far and returns its outcome with the calls it made.  [raises k] is the
    exception the [k]-th call of the whole run raises, if it raises one. *)
Definition tk (A : Type) : Type := nat -> py_result A * list tk_call.

Definition tk_do (raises : nat -> option exn) (c : tk_call) : tk unit :=
  fun n => (match raises n with
            | Some e => Raise e
            | None => Ok tt
            end, [c]).

Definition tk_seq (m : tk unit) (k : tk unit) : tk unit :=
  fun n =>
    match m n with
    | (Ok _, calls) =>
        let '(r, calls') := k (n + length calls)%nat in (r, calls ++ calls')
    | (Raise e, calls) => (Raise e, calls)
    end.

(** [try: m  except Exception: handler] *)
Definition tk_try (m : tk unit) (handler : tk unit) : tk unit :=
  fun n =>
    match m n with
    | (Ok x, calls) => (Ok x, calls)
    | (Raise _, calls) =>
        let '(r, calls') := handler (n + length calls)%nat in (r, calls ++ calls')
    end.

Definition tk_pass : tk unit := fun _ => (Ok tt, []).

(** [bring_to_front(win)] for a window that is not [None]. *)
Definition bring_to_front_tk (raises : nat -> option exn)
  : py_result unit * list tk_call :=
  tk_try
    (tk_seq (tk_do raises Lift)
       (tk_try
          (tk_seq (tk_do raises TopmostOn)
             (tk_seq (tk_do raises FocusForce) (tk_do raises AfterTopmostOff)))
          (tk_do raises FocusForce)))
    (tk_try (tk_do raises Lift) tk_pass)
    0%nat.

(** *** BinaryRainCanvas *)

Module Rain.

Record t : Type := {
  height : Z;
  speed : Z;
  columns : nat;
  drops : list Z;
  running : bool
}.

Definition set_drops (d : list Z) (c : t) : t :=
  {| height := height c; speed := speed c; columns := columns c;
     drops := d; running := running c |}.

(** [stop] *)
Definition stop (c : t) : t :=
  {| height := height c; speed := speed c; columns := columns c;
     drops := drops c; running := false |}.

(** The body of the [for i in range(self.columns)] loop on the drops:
    [self.drops[i] += inc i], then the reset to [reset i] when the drop is
    more than 40 below the canvas.  [inc i] and [reset i] are the draws of
    [random.randint(8, 20)] and [random.randint(-160, -20)] for column
    [i]. *)
Definition animate_column (h : Z) (inc reset : nat -> Z) (i : nat)
    (d : list Z) : py_result (list Z) :=
  match d !! i with
  | None => Raise IndexError
  | Some y =>
      let d1 := <[i := y + inc i]> d in
      match d1 !! i with
      | None => Raise IndexError
      | Some y1 => if h + 40 <? y1 then Ok (<[i := reset i]> d1) else Ok d1
      end
  end.

Fixpoint animate_loop (h : Z) (inc reset : nat -> Z) (cols : list nat)
    (d : list Z) : py_result (list Z) :=
  match cols with
  | [] => Ok d
  | i :: rest =>
      d' ← animate_column h inc reset i d;
      animate_loop h inc reset rest d'
  end.

(** [_animate]: the canvas after the frame and whether the next frame was
    scheduled. *)
Definition animate (inc reset : nat -> Z) (c : t) : py_result (t * bool) :=
  if negb (running c) then Ok (c, false)
  else
    d ← animate_loop (height c) inc reset (seq 0 (columns c)) (drops c);
    Ok (set_drops d c, true).

End Rain.

(** *** BinaryTypingNotepad *)

Module Notepad.

Inductive timer : Type :=
| TypeNextChar
| FadeBegin
| FadeStep (i : Z).

Inductive out : Type :=
| Insert (ch : ascii)
| After (ms : Z) (t : timer)
| WarnLocked
| Front
| Destroy
| DrawFade (i : Z)
| CanvasStop.

(** The fields of the notepad, the text typed so far, which handler the
    window manager's close request runs ([wm_destroys] once the fade has
    installed [destroy]), the one timer of the typing and fading chain that
    is pending, and whether the window still exists.  [fade_delay] is the
    value [max(20, int(fade_time / 12))]. *)
Record t : Type := {
  content : string;
  delay : Z;
  fade_delay : Z;
  idx : nat;
  typing_running : bool;
  text : string;
  wm_destroys : bool;
  canvas_running : bool;
  pending : option timer;
  destroyed : bool
}.

(** [__init__] *)
Definition init (content : string) (delay fade_delay : Z) : t * list out :=
  ({| content := content; delay := delay; fade_delay := fade_delay;
      idx := 0; typing_running := true; text := "";
      wm_destroys := false; canvas_running := true;
      pending := Some TypeNextChar; destroyed := false |},
   [After 180 TypeNextChar]).

(** [160 if ch in ".!?" else (70 if ch == "\n" else 0)] *)
Definition extra (ch : ascii) : Z :=
  if Ascii.eqb ch "." || Ascii.eqb ch "!" || Ascii.eqb ch "?" then 160
  else if Ascii.eqb ch (ascii_of_nat 10) then 70 else 0.

(** [_type_next_char]; the insertion into the text widget is taken to
    succeed. *)
Definition type_next_char (np : t) : t * list out :=
  match String.get (idx np) (content np) with
  | None =>
      ({| content := content np; delay := delay np; fade_delay := fade_delay np;
          idx := idx np; typing_running := false; text := text np;
          wm_destroys := wm_destroys np; canvas_running := canvas_running np;
          pending := Some FadeBegin; destroyed := destroyed np |},
       [After 250 FadeBegin])
  | Some ch =>
      let ms := Z.max 10 (delay np + extra ch) in
      ({| content := content np; delay := delay np; fade_delay := fade_delay np;
          idx := S (idx np); typing_running := typing_running np;
          text := text np +:+ String ch "";
          wm_destroys := wm_destroys np; canvas_running := canvas_running np;
          pending := Some TypeNextChar; destroyed := destroyed np |},
       [Insert ch; After ms TypeNextChar])
  end.

(** The nested [step(i)] of [_fade_background_and_enable_close]. *)
Definition fade_step (i : Z) (np : t) : t * list out :=
  if 12 <? i then
    ({| content := content np; delay := delay np; fade_delay := fade_delay np;
        idx := idx np; typing_running := typing_running np; text := text np;
        wm_destroys := true; canvas_running := false;
        pending := None; destroyed := destroyed np |},
     [CanvasStop])
  else
    ({| content := content np; delay := delay np; fade_delay := fade_delay np;
        idx := idx np; typing_running := typing_running np; text := text np;
        wm_destroys := wm_destroys np; canvas_running := canvas_running np;
        pending := Some (FadeStep (i + 1)); destroyed := destroyed np |},
     [DrawFade i; After (fade_delay np) (FadeStep (i + 1))]).

(** [self.destroy()]; Tk forgets the timers of a destroyed window. *)
Definition destroy (np : t) : t * list out :=
  ({| content := content np; delay := delay np; fade_delay := fade_delay np;
      idx := idx np; typing_running := typing_running np; text := text np;
      wm_destroys := wm_destroys np; canvas_running := canvas_running np;
      pending := None; destroyed := true |},
   [Destroy]).

(** [inert_close] *)
Definition inert_close (np : t) : t * list out :=
  if typing_running np then (np, [WarnLocked; Front]) else destroy np.

Inductive event : Type :=
| TimerFires
| CloseButton
| WmDelete.

Definition step (e : event) (np : t) : t * list out :=
  if destroyed np then (np, [])
  else
    match e with
    | TimerFires =>
        match pending np with
        | Some TypeNextChar => type_next_char np
        | Some FadeBegin => fade_step 0 np
        | Some (FadeStep i) => fade_step i np
        | None => (np, [])
        end
    | CloseButton => inert_close np
    | WmDelete => if wm_destroys np then destroy np else inert_close np
    end.

Fixpoint run (evs : list event) (np : t) : t :=
  match evs with
  | [] => np
  | e :: rest => run rest (step e np).1
  end.

End Notepad.

(** *** Vocabulary of the further statements *)

(** The frame of [c] with the drop of column [i] at [y]: the drop after its
    step and its possible reset. *)
Definition next_drop (h : Z) (inc reset : nat -> Z) (i : nat) (y : Z) : Z :=
  if h + 40 <? y + inc i then reset i else y + inc i.

(** The notepad of [content] after [k] characters have been typed. *)
Definition typed (content : string) (delay fade_delay : Z) (k : nat)
  : Notepad.t :=
  {| Notepad.content := content; Notepad.delay := delay;
     Notepad.fade_delay := fade_delay; Notepad.idx := k;
     Notepad.typing_running := true;
     Notepad.text := string_of_list_ascii (take k (list_ascii_of_string content));
     Notepad.wm_destroys := false; Notepad.canvas_running := true;
     Notepad.pending := Some Notepad.TypeNextChar;
     Notepad.destroyed := false |}.

(** The notepad of [content] once the typing has stopped. *)
Definition finished (content : string) (delay fade_delay : Z) : Notepad.t :=
  {| Notepad.content := content; Notepad.delay := delay;
     Notepad.fade_delay := fade_delay; Notepad.idx := String.length content;
     Notepad.typing_running := false; Notepad.text := content;
     Notepad.wm_destroys := false; Notepad.canvas_running := true;
     Notepad.pending := Some Notepad.FadeBegin;
     Notepad.destroyed := false |}.

(** What every reachable notepad satisfies. *)
Definition notepad_inv (c : string) (np : Notepad.t) : Prop :=
  Notepad.content np = c
  /\ (Notepad.idx np <= String.length c)%nat
  /\ list_ascii_of_string (Notepad.text np)
     = take (Notepad.idx np) (list_ascii_of_string c)
  /\ (Notepad.typing_running np = true ->
      Notepad.destroyed np = false
      /\ Notepad.pending np = Some Notepad.TypeNextChar
      /\ Notepad.wm_destroys np = false)
  /\ (Notepad.typing_running np = false -> Notepad.idx np = String.length c).

(** A position that can be read in [secret] and written in a list of [n]
    characters. *)
Definition in_range (secret : string) (n : nat) (pos : nat) : Prop :=
  (pos < n)%nat /\ (pos < String.length secret)%nat.

(** Whether the reply to question [j] of [picks] passes its test. *)
Definition passes (picks : list (string * string))
    (answers : nat -> option string) (j : nat) : bool :=
  match picks !! j with
  | Some (_, a) => answer_ok (answers j) a
  | None => false
  end.

(** The replies [answers], seen from question [i] on. *)
Definition shift (i : nat) (answers : nat -> option string)
  : nat -> option string :=
  fun j => answers (i + j)%nat.

Definition is_warning (e : ui_event) : bool :=
  match e with
  | MsgWarning _ _ => true
  | _ => false
  end.

(** The number of warnings and of overlays in the logs of a run. *)
Definition warnings_shown (logs : list (list ui_event)) : nat :=
  length (List.filter is_warning (concat logs)).

Definition overlays_opened (logs : list (list ui_event)) : nat :=
  length (List.filter creates_overlay (concat logs)).

(** The warnings and the overlays of one log. *)
Definition count_w (log : list ui_event) : nat :=
  length (List.filter is_warning log).

Definition count_o (log : list ui_event) : nat :=
  length (List.filter creates_overlay log).

(** The attempts counted since the last overlay closed, when none is
    open. *)
Definition warned (st : app_state) : nat :=
  if overlay_open st then 0%nat else Z.to_nat (attempts st).

(** A log that shows no warning and opens no overlay. *)
Definition quiet (log : list ui_event) : Prop :=
  List.filter is_warning log = [] /\ List.filter creates_overlay log = [].

(** The event is a successful unlock in state [st]. *)
Definition unlocks (st : app_state) (e : event) : Prop :=
  match e with
  | ClickEmergency confirm idx answers code =>
      confirm = true /\ emergency_correct idx answers = 10
      /\ code_accepted code (SECRET_CODE st) = true
  | _ => False
  end.

(** The providers answer with one body that names a city only. *)
Definition city_only (_ : string) : response :=
  Body (Some (JObject [("city", JString "Lima")])).

(** * Properties *)

Ltac solve_perm :=
  apply (Permutation_sym (l := [0; 1; 2; 3]%nat));
  apply permutations_Permutation; vm_compute;
  repeat (first [apply list_elem_of_here | apply list_elem_of_further]).

Ltac solve_sample :=
  split; [reflexivity|]; split;
  [apply (bool_decide_unpack _); vm_compute; exact I
  | repeat constructor; cbn; lia].

(** ** Secret code *)

Section SecretCode.

Lemma code_ok_all :
  forallb (fun a => forallb (fun b => forallb (fun c =>
    forallb (fun d => code_ok a b c d) ten) ten) ten) ten = true.
Proof. vm_compute. reflexivity. Qed.

Lemma code_ok_digits (a b c d : Z) :
  In a ten -> In b ten -> In c ten -> In d ten -> code_ok a b c d = true.
Proof.
  intros Ha Hb Hc Hd.
  pose proof code_ok_all as H.
  rewrite forallb_forall in H. specialize (H a Ha).
  rewrite forallb_forall in H. specialize (H b Hb).
  rewrite forallb_forall in H. specialize (H c Hc).
  rewrite forallb_forall in H. exact (H d Hd).
Qed.

Lemma code_ok_spec (a b c d : Z) :
  code_ok a b c d = true ->
  let r := 1000 * a + 100 * b + 10 * c + d in
  new_secret_code r = four a b c d
  /\ String.length (new_secret_code r) = 4%nat
  /\ all_digits (new_secret_code r) = true
  /\ PyStr.decimal_value (new_secret_code r) = r
  /\ PyStr.strip (new_secret_code r) = new_secret_code r.
Proof.
  unfold code_ok. cbv zeta. intros H.
  apply andb_prop in H as [H H5].
  apply andb_prop in H as [H H4]. apply andb_prop in H as [H H3].
  apply andb_prop in H as [H1 H2].
  apply String.eqb_eq in H1, H5. apply Nat.eqb_eq in H2. apply Z.eqb_eq in H4.
  auto.
Qed.

Lemma In_ten (d : Z) : 0 <= d <= 9 -> In d ten.
Proof.
  intros H. unfold ten.
  assert (d = 0 \/ d = 1 \/ d = 2 \/ d = 3 \/ d = 4 \/ d = 5 \/ d = 6
          \/ d = 7 \/ d = 8 \/ d = 9) as Hd by lia.
  simpl. intuition auto.
Qed.

Lemma ten_range (d : Z) : In d ten -> 0 <= d <= 9.
Proof. unfold ten. simpl. intros H. intuition lia. Qed.

Lemma is_digit_char (c : ascii) :
  PyStr.is_digit c = true -> exists d, In d ten /\ c = PyStr.digit_char d.
Proof.
  intros H.
  exists (Z.of_N (N_of_ascii c) - 48). split.
  - destruct c as [[] [] [] [] [] [] [] []]; vm_compute in H; try discriminate H;
      vm_compute; tauto.
  - destruct c as [[] [] [] [] [] [] [] []]; vm_compute in H; try discriminate H;
      reflexivity.
Qed.

Lemma secret_code_shape (r : Z) :
  0 <= r <= 9999 ->
  exists a b c d,
    new_secret_code r = four a b c d
    /\ In a ten /\ In b ten /\ In c ten /\ In d ten
    /\ String.length (new_secret_code r) = 4%nat
    /\ all_digits (new_secret_code r) = true
    /\ PyStr.decimal_value (new_secret_code r) = r
    /\ PyStr.strip (new_secret_code r) = new_secret_code r.
Proof.
  intros Hr.
  set (a := r / 1000). set (b := r / 100 mod 10).
  set (c := r / 10 mod 10). set (d := r mod 10).
  assert (r = 1000 * a + 100 * b + 10 * c + d) as Er
    by (subst a b c d; Z.div_mod_to_equations; lia).
  assert (In a ten /\ In b ten /\ In c ten /\ In d ten) as (Ha & Hb & Hc & Hd).
  { repeat split; apply In_ten; subst a b c d; Z.div_mod_to_equations; lia. }
  pose proof (code_ok_spec _ _ _ _ (code_ok_digits a b c d Ha Hb Hc Hd)) as H.
  cbv zeta in H. rewrite <- Er in H.
  exists a, b, c, d. tauto.
Qed.

Lemma digit_char_not_mask (d : Z) : In d ten -> PyStr.digit_char d <> "*"%char.
Proof.
  unfold ten. simpl. intros H.
  repeat (destruct H as [<- | H]; [discriminate|]). destruct H.
Qed.

End SecretCode.

(** C6: for every draw [r] of [random.randint(0, 9999)] the code is a string
    of exactly four decimal digits, the zero-padded decimal writing of [r];
    and every string of four decimal digits is the code of exactly the draw
    it writes, so the generator maps the 10000 equally likely draws one to
    one onto 0000..9999. *)
Theorem new_secret_code_four_digits :
  (forall r : Z, 0 <= r <= 9999 ->
     String.length (new_secret_code r) = 4%nat
     /\ all_digits (new_secret_code r) = true
     /\ PyStr.decimal_value (new_secret_code r) = r)
  /\ (forall s : string, String.length s = 4%nat -> all_digits s = true ->
        0 <= PyStr.decimal_value s <= 9999
        /\ new_secret_code (PyStr.decimal_value s) = s).
Proof.
  split.
  - intros r Hr.
    destruct (secret_code_shape r Hr) as (a & b & c & d & H). tauto.
  - intros s Hlen Hdig.
    destruct s as [|a [|b [|c [|d [|? ?]]]]]; try discriminate Hlen.
    unfold all_digits in Hdig. cbn [list_ascii_of_string forallb] in Hdig.
    apply andb_prop in Hdig as [Ha Hdig]. apply andb_prop in Hdig as [Hb Hdig].
    apply andb_prop in Hdig as [Hc Hdig]. apply andb_prop in Hdig as [Hd _].
    apply is_digit_char in Ha as (ka & Hka & ->).
    apply is_digit_char in Hb as (kb & Hkb & ->).
    apply is_digit_char in Hc as (kc & Hkc & ->).
    apply is_digit_char in Hd as (kd & Hkd & ->).
    pose proof (code_ok_spec _ _ _ _ (code_ok_digits ka kb kc kd Hka Hkb Hkc Hkd))
      as (H1 & _ & _ & H4 & _).
    change (String (PyStr.digit_char ka) (String (PyStr.digit_char kb)
              (String (PyStr.digit_char kc) (String (PyStr.digit_char kd) ""))))
      with (four ka kb kc kd).
    rewrite <- H1, H4, H1.
    apply ten_range in Hka, Hkb, Hkc, Hkd. split; [lia | reflexivity].
Qed.

Lemma new_secret_code_four_digits_witness :
  (String.length (new_secret_code 42) = 4%nat
   /\ all_digits (new_secret_code 42) = true
   /\ PyStr.decimal_value (new_secret_code 42) = 42)
  /\ (0 <= PyStr.decimal_value "4821" <= 9999
      /\ new_secret_code (PyStr.decimal_value "4821") = "4821").
Proof.
  split.
  - apply (proj1 new_secret_code_four_digits 42). lia.
  - apply (proj2 new_secret_code_four_digits "4821"); reflexivity.
Defined.

(** ** Nothing a handler does touches the code or the helpers *)

Section Lifetime.

Lemma show_overlay_keeps (ms : Z) (st : app_state) :
  SECRET_CODE (show_overlay_then_reset ms st).1 = SECRET_CODE st
  /\ helpers (show_overlay_then_reset ms st).1 = helpers st.
Proof. unfold show_overlay_then_reset. destruct (overlay_open st); auto. Qed.

Lemma step_keeps (e : event) (st : app_state) :
  SECRET_CODE (step e st).1 = SECRET_CODE st
  /\ helpers (step e st).1 = helpers st.
Proof.
  unfold step. destruct (alive st); [|auto]. cbn [negb].
  destruct e as [draw|iconic draw|id| |idx answers|confirm idx answers code
                |confirm net| |].
  - unfold on_close_attempt. case_match; [auto|].
    apply (show_overlay_keeps _ (set_attempts _ st)).
  - unfold on_unmap. destruct iconic; [|auto]. case_match; [auto|].
    pose proof (show_overlay_keeps (draw * 1000)
                  (set_attempts (attempts st + 1) st)) as Hk.
    destruct (show_overlay_then_reset _ _); exact Hk.
  - case_bool_decide; auto.
  - destruct (clue_finder (helpers st)); auto.
  - destruct (trivia_helper (helpers st) idx answers); auto.
  - destruct (emergency_quiz_flow _ _ _ _ _) as [[|status] log]; auto.
  - unfold yes_flow. destruct confirm; [|auto]. cbn [negb].
    destruct (fetch_ip_location net).1 as [[city country]|]; auto.
  - auto.
  - auto.
Qed.

Lemma run_keeps (evs : list event) (st : app_state) :
  SECRET_CODE (run evs st).1 = SECRET_CODE st
  /\ helpers (run evs st).1 = helpers st.
Proof.
  revert st. induction evs as [|e evs IH]; intros st; [auto|].
  cbn [run]. pose proof (step_keeps e st) as [Hc Hh].
  destruct (step e st) as [st1 log]. specialize (IH st1).
  destruct (run evs st1) as [st2 logs]. cbn [fst] in *.
  destruct IH as [IHc IHh]. split; congruence.
Qed.

End Lifetime.

(** ** The two position sets *)

Section Positions.

Lemma init_splits (secret_code : string) (shuffled : list nat) :
  shuffled ≡ₚ [0; 1; 2; 3]%nat ->
  let h := SecretHelpers_init secret_code shuffled in
  secret h = secret_code
  /\ (clue_positions h, trivia_positions h) ∈ splits.
Proof.
  intros Hp. split; [reflexivity|].
  symmetry in Hp. apply permutations_Permutation in Hp.
  vm_compute permutations in Hp.
  repeat (apply elem_of_cons in Hp as [-> | Hp];
          [vm_compute; repeat (first [apply list_elem_of_here
                                     | apply list_elem_of_further])|]).
  apply elem_of_nil in Hp. destruct Hp.
Qed.

Lemma splits_partition (p : list nat * list nat) :
  p ∈ splits -> partition_ok p.
Proof.
  intros Hp. unfold splits in Hp.
  repeat (apply elem_of_cons in Hp as [-> | Hp];
          [unfold partition_ok; cbn [fst snd];
           repeat split; vm_compute; reflexivity|]).
  apply elem_of_nil in Hp. destruct Hp.
Qed.

End Positions.

(** C7: in every run, whatever order the shuffle leaves, the clue positions
    and the trivia positions are two 2-element subsets of {0,1,2,3} that are
    disjoint and together give {0,1,2,3}; and after any sequence of events
    the helpers object still holds the positions it was built with. *)
Theorem positions_partition_for_life (r0 r1 : Z) (shuffled : list nat)
    (evs : list event) :
  shuffled ≡ₚ [0; 1; 2; 3]%nat ->
  let h := helpers (run evs (run_app r0 r1 shuffled)).1 in
  let clue : gset nat := list_to_set (clue_positions h) in
  let trivia : gset nat := list_to_set (trivia_positions h) in
  h = helpers (run_app r0 r1 shuffled)
  /\ length (clue_positions h) = 2%nat /\ length (trivia_positions h) = 2%nat
  /\ size clue = 2%nat /\ size trivia = 2%nat
  /\ clue ∩ trivia = ∅
  /\ clue ∪ trivia = list_to_set [0; 1; 2; 3]%nat.
Proof.
  intros Hp. cbv zeta.
  rewrite (proj2 (run_keeps evs (run_app r0 r1 shuffled))).
  split; [reflexivity|].
  pose proof (init_splits (new_secret_code r1) shuffled Hp) as [_ Hs].
  apply splits_partition in Hs. exact Hs.
Qed.

Lemma positions_partition_for_life_witness :
  let h := helpers (run [WmDeleteWindow 9; ClickClueFinder; PanicKey]
                        (run_app 7 4821 [3; 0; 2; 1]%nat)).1 in
  let clue : gset nat := list_to_set (clue_positions h) in
  let trivia : gset nat := list_to_set (trivia_positions h) in
  h = helpers (run_app 7 4821 [3; 0; 2; 1]%nat)
  /\ length (clue_positions h) = 2%nat /\ length (trivia_positions h) = 2%nat
  /\ size clue = 2%nat /\ size trivia = 2%nat
  /\ clue ∩ trivia = ∅
  /\ clue ∪ trivia = list_to_set [0; 1; 2; 3]%nat.
Proof.
  apply (positions_partition_for_life 7 4821 [3; 0; 2; 1]%nat
           [WmDeleteWindow 9; ClickClueFinder; PanicKey]).
  apply (Permutation_sym (l := [0; 1; 2; 3]%nat)).
  apply permutations_Permutation. vm_compute.
  repeat (first [apply list_elem_of_here | apply list_elem_of_further]).
Defined.

(** ** The two patterns *)

Section Patterns.

Variables a b c d : ascii.

Local Abbreviation code := (code_of a b c d).

Lemma pattern_of_split (p : list nat * list nat) :
  p ∈ splits ->
  exists p1 p2,
    pattern_of code p.1 = Ok p1 /\ pattern_of code p.2 = Ok p2
    /\ masks code p.1 p1 /\ masks code p.2 p2
    /\ forall i : nat, (i < 4)%nat ->
         (char_at p1 i = Some "*"%char /\ char_at p2 i = char_at code i)
         \/ (char_at p2 i = Some "*"%char /\ char_at p1 i = char_at code i).
Proof.
  intros Hp. unfold splits in Hp.
  repeat (apply elem_of_cons in Hp as [-> | Hp];
    [eexists _, _; split; [reflexivity|]; split; [reflexivity|];
     split; [|split];
     [ split; [reflexivity|];
       intros [|[|[|[|i]]]] Hi; try lia; reflexivity
     | split; [reflexivity|];
       intros [|[|[|[|i]]]] Hi; try lia; reflexivity
     | intros [|[|[|[|i]]]] Hi; try lia;
       first [left; split; reflexivity | right; split; reflexivity] ]
    |]).
  apply elem_of_nil in Hp. destruct Hp.
Qed.

Lemma merge_plain (x y : ascii) : x <> "*"%char -> merge_char x y = x.
Proof.
  intros H. unfold merge_char.
  destruct (Ascii.eqb x "*") eqn:E; [|reflexivity].
  apply Ascii.eqb_eq in E. contradiction.
Qed.

Lemma overlay_split (p : list nat * list nat) (p1 p2 : string) :
  a <> "*"%char -> b <> "*"%char -> c <> "*"%char -> d <> "*"%char ->
  p ∈ splits ->
  pattern_of code p.1 = Ok p1 -> pattern_of code p.2 = Ok p2 ->
  overlay_patterns p1 p2 = code.
Proof.
  intros Ha Hb Hc Hd Hp. unfold splits in Hp.
  repeat (apply elem_of_cons in Hp as [-> | Hp];
    [intros [= <-] [= <-]; unfold overlay_patterns, code;
     cbn [list_ascii_of_string zip_with string_of_list_ascii];
     rewrite ?(merge_plain a), ?(merge_plain b), ?(merge_plain c),
       ?(merge_plain d) by assumption;
     reflexivity|]).
  apply elem_of_nil in Hp. destruct Hp.
Qed.

End Patterns.

Section Reveal.

(** The helpers of a run hold a code [a b c d] of digits and one of the six
    splits. *)
Lemma run_app_shape (r0 r1 : Z) (shuffled : list nat) :
  0 <= r1 <= 9999 -> shuffled ≡ₚ [0; 1; 2; 3]%nat ->
  let st0 := run_app r0 r1 shuffled in
  exists a b c d,
    SECRET_CODE st0 = four a b c d
    /\ secret (helpers st0) = four a b c d
    /\ In a ten /\ In b ten /\ In c ten /\ In d ten
    /\ (clue_positions (helpers st0), trivia_positions (helpers st0)) ∈ splits
    /\ PyStr.strip (SECRET_CODE st0) = SECRET_CODE st0.
Proof.
  intros Hr Hp.
  destruct (secret_code_shape r1 Hr)
    as (a & b & c & d & E & Ha & Hb & Hc & Hd & _ & _ & _ & Hst).
  destruct (init_splits (new_secret_code r1) shuffled Hp) as [_ Hs].
  exists a, b, c, d. cbn [run_app SECRET_CODE helpers]. rewrite <- E.
  repeat split; auto.
Qed.

Lemma step_clue_finder (st : app_state) (p : string) :
  alive st = true ->
  pattern_of (secret (helpers st)) (clue_positions (helpers st)) = Ok p ->
  (step ClickClueFinder st).2
  = [MsgInfo "Clue Finder" ("Clue revealed: " +:+ p); BringToFront Root].
Proof.
  intros Hal Hp. unfold step. rewrite Hal. cbn [negb].
  unfold clue_finder. rewrite Hp. reflexivity.
Qed.

End Reveal.

(** C8: in a run, the Clue Finder shows one pattern [p] of four characters,
    the digit of the secret code at each clue position and ['*'] at each
    other position; the same [p] is shown at every call, whatever events come
    before it.  With code "4821" and clue positions [0,3] the pattern is
    "4**1", and a perfect trivia score shows "*82*" for positions [1,2]. *)
Theorem clue_finder_pattern (r0 r1 : Z) (shuffled : list nat) :
  0 <= r1 <= 9999 -> shuffled ≡ₚ [0; 1; 2; 3]%nat ->
  let st0 := run_app r0 r1 shuffled in
  (exists p : string,
     String.length p = 4%nat
     /\ (forall i : nat, (i < 4)%nat ->
           char_at p i
           = if bool_decide (i ∈ clue_positions (helpers st0))
             then char_at (SECRET_CODE st0) i else Some "*"%char)
     /\ forall evs : list event,
          alive (run evs st0).1 = true ->
          (step ClickClueFinder (run evs st0).1).2
          = [MsgInfo "Clue Finder" ("Clue revealed: " +:+ p);
             BringToFront Root])
  /\ clue_finder {| secret := "4821"; clue_positions := [0; 3]%nat;
                    trivia_positions := [1; 2]%nat |}
     = Ok [MsgInfo "Clue Finder" "Clue revealed: 4**1"; BringToFront Root]
  /\ exists asked,
       trivia_helper {| secret := "4821"; clue_positions := [0; 3]%nat;
                        trivia_positions := [1; 2]%nat |}
         [0; 1; 2; 3; 4]%nat (knows_all trivia_qpool [0; 1; 2; 3; 4]%nat)
       = Ok (asked ++ [MsgInfo "Trivia Helper" "Passed! Revealed: *82*";
                       BringToFront Root]).
Proof.
  intros Hr Hp st0. split; [|split; [reflexivity|]].
  - destruct (run_app_shape r0 r1 shuffled Hr Hp)
      as (a & b & c & d & Ec & Es & _ & _ & _ & _ & Hs & _).
    fold st0 in Ec, Es, Hs.
    destruct (pattern_of_split (PyStr.digit_char a) (PyStr.digit_char b)
                (PyStr.digit_char c) (PyStr.digit_char d) _ Hs)
      as (p1 & p2 & H1 & _ & [Hlen Hmask] & _).
    cbn [fst] in H1, Hmask.
    exists p1. split; [exact Hlen|]. split.
    + intros i Hi. rewrite Ec. apply Hmask, Hi.
    + intros evs Hal. apply step_clue_finder; [exact Hal|].
      rewrite (proj2 (run_keeps evs st0)), Es. exact H1.
  - exists (ask_all "Trivia Helper" (sample trivia_qpool [0; 1; 2; 3; 4]%nat)
              (knows_all trivia_qpool [0; 1; 2; 3; 4]%nat) 0 0).2.
    vm_compute. reflexivity.
Qed.

Lemma clue_finder_pattern_witness :
  exists p : string,
    String.length p = 4%nat
    /\ (step ClickClueFinder
          (run [WmDeleteWindow 9; ClickClueFinder] (run_app 7 4821 [3; 0; 2; 1]%nat)).1).2
       = [MsgInfo "Clue Finder" ("Clue revealed: " +:+ p); BringToFront Root].
Proof.
  assert (0 <= 4821 <= 9999) as Hr by lia.
  assert ([3; 0; 2; 1]%nat ≡ₚ [0; 1; 2; 3]%nat) as Hp.
  { apply (Permutation_sym (l := [0; 1; 2; 3]%nat)).
    apply permutations_Permutation. vm_compute.
    repeat (first [apply list_elem_of_here | apply list_elem_of_further]). }
  destruct (proj1 (clue_finder_pattern 7 4821 [3; 0; 2; 1]%nat Hr Hp))
    as (p & Hlen & _ & Hall).
  exists p. split; [exact Hlen|].
  apply Hall. reflexivity.
Defined.

(** ** The quiz loop *)

Section Quiz.

Variable title : string.
Variable answers : nat -> option string.

Lemma ask_all_log (picks : list (string * string)) (i : nat) (c : Z) :
  (ask_all title picks answers i c).2 = asks title picks.
Proof.
  revert i c. induction picks as [|[q a] rest IH]; intros i c; [reflexivity|].
  cbn [ask_all]. specialize (IH (S i) (if answer_ok (answers i) a then c + 1 else c)).
  destruct (ask_all title rest answers (S i) _) as [c' log].
  cbn [snd] in *. rewrite IH. reflexivity.
Qed.

Lemma ask_all_bounds (picks : list (string * string)) (i : nat) (c : Z) :
  c <= (ask_all title picks answers i c).1 <= c + Z.of_nat (length picks).
Proof.
  revert i c. induction picks as [|[q a] rest IH]; intros i c.
  - cbn. lia.
  - cbn [ask_all length].
    specialize (IH (S i) (if answer_ok (answers i) a then c + 1 else c)).
    destruct (ask_all title rest answers (S i) _) as [c' log].
    cbn [fst] in *. destruct (answer_ok (answers i) a); lia.
Qed.

(** The count reaches the number of questions exactly when every reply
    passes the test of its question. *)
Lemma ask_all_full (picks : list (string * string)) (i : nat) (c : Z) :
  (ask_all title picks answers i c).1 = c + Z.of_nat (length picks)
  <-> forall (j : nat) (q a : string),
        picks !! j = Some (q, a) -> answer_ok (answers (i + j)%nat) a = true.
Proof.
  revert i c. induction picks as [|[q a] rest IH]; intros i c.
  - cbn. split; [intros _ j q a Hj; discriminate Hj | lia].
  - cbn [ask_all length].
    pose proof (ask_all_bounds rest (S i) (if answer_ok (answers i) a then c + 1 else c)) as Hb.
    specialize (IH (S i) (if answer_ok (answers i) a then c + 1 else c)).
    destruct (ask_all title rest answers (S i) _) as [c' log].
    cbn [fst] in *. split.
    + intros Hc j q' a' Hj.
      destruct (answer_ok (answers i) a) eqn:E; [|lia].
      destruct j as [|j].
      * cbn in Hj. injection Hj as <- <-. rewrite Nat.add_0_r. exact E.
      * cbn in Hj. replace (i + S j)%nat with (S i + j)%nat by lia.
        apply (proj1 IH) with (q := q'); [lia | exact Hj].
    + intros Hall.
      pose proof (Hall 0%nat q a eq_refl) as E. rewrite Nat.add_0_r in E.
      rewrite E in *.
      assert (c' = c + 1 + Z.of_nat (length rest)) as ->; [|lia].
      apply IH. intros j q' a' Hj.
      replace (S i + j)%nat with (i + S j)%nat by lia.
      apply Hall with (q := q'). exact Hj.
Qed.

(** One reply that fails its test costs at least one point. *)
Lemma ask_all_miss (picks : list (string * string)) (i : nat) (c : Z)
    (j : nat) (q a : string) :
  picks !! j = Some (q, a) -> answer_ok (answers (i + j)%nat) a = false ->
  (ask_all title picks answers i c).1 <= c + Z.of_nat (length picks) - 1.
Proof.
  intros Hj Hbad.
  pose proof (ask_all_bounds picks i c) as Hb.
  destruct (Z.eq_dec (ask_all title picks answers i c).1
              (c + Z.of_nat (length picks))) as [E|E]; [|lia].
  pose proof (proj1 (ask_all_full picks i c) E j q a Hj) as Hok.
  rewrite Hok in Hbad. discriminate Hbad.
Qed.

End Quiz.

(** The count after the loop, as a number of replies. *)
Lemma ask_all_count (title : string) (picks : list (string * string))
    (answers : nat -> option string) (i : nat) (c : Z) :
  (ask_all title picks answers i c).1
  = c + Z.of_nat (length (List.filter (passes picks (shift i answers))
                            (seq 0 (length picks)))).
Proof.
  revert i c. induction picks as [|[q a] rest IH]; intros i c.
  - cbn. lia.
  - cbn [ask_all length]. specialize (IH (S i) (if answer_ok (answers i) a then c + 1 else c)).
    destruct (ask_all title rest answers (S i) _) as [c' log]. cbn [fst] in *.
    rewrite IH. cbn [seq List.filter].
    assert (passes ((q, a) :: rest) (shift i answers) 0 = answer_ok (answers i) a) as ->.
    { unfold passes, shift. cbn. rewrite Nat.add_0_r. reflexivity. }
    assert (List.filter (passes ((q, a) :: rest) (shift i answers)) (seq 1 (length rest))
            = map S (List.filter (passes rest (shift (S i) answers))
                       (seq 0 (length rest)))) as ->.
    { rewrite <- seq_shift. generalize (seq 0 (length rest)). intros l.
      induction l as [|j l IHl]; [reflexivity|].
      cbn [map List.filter].
      assert (passes ((q, a) :: rest) (shift i answers) (S j)
              = passes rest (shift (S i) answers) j) as ->.
      { unfold passes, shift. cbn [lookup list_lookup].
        replace (i + S j)%nat with (S i + j)%nat by lia. reflexivity. }
      destruct (passes rest (shift (S i) answers) j); cbn [map]; rewrite IHl;
        reflexivity. }
    destruct (answer_ok (answers i) a); cbn [length]; rewrite length_map; lia.
Qed.

Section Sample.

Context {A : Type}.
Variable pool : list A.

Lemma sample_lookup (idx : list nat) :
  Forall (fun i => (i < length pool)%nat) idx ->
  length (sample pool idx) = length idx
  /\ forall j : nat, sample pool idx !! j = idx !! j ≫= (pool !!.).
Proof.
  induction 1 as [|i idx Hi _ [IHl IHj]].
  - split; [reflexivity|]. intros j. reflexivity.
  - apply lookup_lt_is_Some_2 in Hi as [x Hx].
    unfold sample in *. cbn [omap list_omap]. rewrite Hx. split.
    + cbn. rewrite IHl. reflexivity.
    + intros [|j]; [cbn; rewrite Hx; reflexivity | apply IHj].
Qed.

Lemma sample_length (k : nat) (idx : list nat) :
  is_sample pool k idx -> length (sample pool idx) = k.
Proof.
  intros (Hk & _ & Hin). rewrite (proj1 (sample_lookup idx Hin)). exact Hk.
Qed.

Lemma sample_elem (x : A) (idx : list nat) :
  x ∈ sample pool idx <-> exists i, i ∈ idx /\ pool !! i = Some x.
Proof. unfold sample. apply list_elem_of_omap. Qed.

(** Positions drawn once each from a pool without repeats give picks
    without repeats, all of them from the pool. *)
Lemma sample_NoDup (idx : list nat) :
  NoDup pool -> NoDup idx ->
  NoDup (sample pool idx) /\ sample pool idx ⊆ pool.
Proof.
  intros Hpool Hidx. split.
  - induction Hidx as [|i idx Hnotin Hidx IH]; [constructor|].
    unfold sample in *. cbn [omap list_omap].
    destruct (pool !! i) as [x|] eqn:Hx; [|exact IH].
    constructor; [|exact IH].
    intros Hin. apply sample_elem in Hin as (i' & Hi' & Hx').
    assert (i = i') as -> by exact (NoDup_lookup pool i i' x Hpool Hx Hx').
    contradiction.
  - intros x Hin. apply sample_elem in Hin as (i & _ & Hx).
    eapply list_elem_of_lookup_2, Hx.
Qed.

End Sample.

(** ** Trivia helper *)

Section Trivia.

Lemma trivia_qpool_NoDup : NoDup trivia_qpool.
Proof. apply (bool_decide_unpack _). vm_compute. exact I. Qed.

Lemma blank_fails (pool : list (string * string)) (ans : option string)
    (q a : string) :
  Forall (fun qa => String.eqb "" (PyStr.lower qa.2) = false) pool ->
  (q, a) ∈ pool -> blank ans -> answer_ok ans a = false.
Proof.
  intros Hpool Hin Hb. unfold answer_ok.
  destruct ans as [s|]; [|reflexivity].
  cbn in Hb. rewrite Hb.
  rewrite Forall_forall in Hpool. specialize (Hpool (q, a) Hin).
  change (String.eqb "" (PyStr.lower a) = false) in Hpool.
  cbn [PyStr.lower]. rewrite Hpool. apply andb_false_r.
Qed.

Lemma trivia_answers_nonempty :
  Forall (fun qa => String.eqb "" (PyStr.lower qa.2) = false) trivia_qpool.
Proof. repeat constructor. Qed.

Lemma helpers_patterns (r0 r1 : Z) (shuffled : list nat) (evs : list event) :
  0 <= r1 <= 9999 -> shuffled ≡ₚ [0; 1; 2; 3]%nat ->
  let self := helpers (run evs (run_app r0 r1 shuffled)).1 in
  exists p1 p2,
    pattern_of (secret self) (clue_positions self) = Ok p1
    /\ pattern_of (secret self) (trivia_positions self) = Ok p2
    /\ masks (secret self) (clue_positions self) p1
    /\ masks (secret self) (trivia_positions self) p2.
Proof.
  intros Hr Hp self. subst self.
  rewrite (proj2 (run_keeps evs _)).
  destruct (run_app_shape r0 r1 shuffled Hr Hp)
    as (a & b & c & d & _ & Es & _ & _ & _ & _ & Hs & _).
  destruct (pattern_of_split (PyStr.digit_char a) (PyStr.digit_char b)
              (PyStr.digit_char c) (PyStr.digit_char d) _ Hs)
    as (p1 & p2 & H1 & H2 & M1 & M2 & _).
  cbn [fst snd] in *. rewrite Es. exists p1, p2. auto.
Qed.

End Trivia.

(** C5: the trivia helper asks five questions, taken at five distinct
    positions of its fixed pool of ten pairs; the count it keeps is the
    number of the five replies that pass the test of their question (a
    non-empty reply that, trimmed and lower-cased, equals the lower-cased
    stored answer), so it is between 0 and 5 and it is 5 exactly when all
    five pass; it never raises; after the questions it shows the pattern of
    the trivia positions when the count is 5 and only the score otherwise; a
    reply that is cancelled or blank fails its question, so the count stays
    below 5. *)
Theorem trivia_helper_contract (r0 r1 : Z) (shuffled : list nat)
    (evs : list event) (idx : list nat) (answers : nat -> option string) :
  0 <= r1 <= 9999 -> shuffled ≡ₚ [0; 1; 2; 3]%nat ->
  is_sample trivia_qpool 5 idx ->
  let self := helpers (run evs (run_app r0 r1 shuffled)).1 in
  let picks := sample trivia_qpool idx in
  let correct := trivia_correct idx answers in
  (10 <= length trivia_qpool)%nat
  /\ length picks = 5%nat /\ NoDup picks /\ picks ⊆ trivia_qpool
  /\ 0 <= correct <= 5
  /\ (exists p : string,
        masks (secret self) (trivia_positions self) p
        /\ trivia_helper self idx answers
           = Ok (asks "Trivia Helper" picks ++
                 [MsgInfo "Trivia Helper"
                    (if correct =? 5 then "Passed! Revealed: " +:+ p
                     else "You got " +:+ str_of_int correct +:+ "/5 correct.");
                  BringToFront Root]))
  /\ (forall (j : nat) (q a : string),
        picks !! j = Some (q, a) -> blank (answers j) ->
        answer_ok (answers j) a = false /\ correct <= 4)
  /\ correct = Z.of_nat (length (List.filter (passes picks answers) (seq 0 5)))
  /\ (correct = 5
      <-> forall (j : nat) (q a : string),
            picks !! j = Some (q, a) -> answer_ok (answers j) a = true)
  /\ (forall s a : string,
        answer_ok (Some s) a = true
        <-> s <> "" /\ PyStr.lower (PyStr.strip s) = PyStr.lower a)
  /\ (forall a : string, answer_ok None a = false).
Proof.
  intros Hr Hp Hs self picks correct.
  pose proof (sample_length trivia_qpool 5 idx Hs) as Hlen.
  destruct Hs as (Hk & Hnd & Hin).
  pose proof (sample_NoDup trivia_qpool idx trivia_qpool_NoDup Hnd) as [Hpn Hsub].
  fold picks in Hlen, Hpn, Hsub.
  pose proof (ask_all_bounds "Trivia Helper" answers picks 0 0) as Hb.
  rewrite Hlen in Hb. change (0 <= correct <= 0 + Z.of_nat 5) in Hb.
  split; [cbn; lia|]. split; [exact Hlen|]. split; [exact Hpn|].
  split; [exact Hsub|]. split; [lia|].
  split; [|split; [|split; [|split; [|split]]]].
  - destruct (helpers_patterns r0 r1 shuffled evs Hr Hp) as (p1 & p2 & _ & H2 & _ & M2).
    fold self in H2, M2. exists p2. split; [exact M2|].
    unfold trivia_helper. fold picks.
    pose proof (ask_all_log "Trivia Helper" answers picks 0 0) as Hlog.
    assert ((ask_all "Trivia Helper" picks answers 0 0).1 = correct) as Hc
      by reflexivity.
    destruct (ask_all "Trivia Helper" picks answers 0 0) as [c log].
    cbn [fst snd] in Hlog, Hc. subst c log.
    destruct (correct =? 5); [rewrite H2|]; reflexivity.
  - intros j q a Hj Hblank.
    assert (answer_ok (answers j) a = false) as Hbad.
    { apply (blank_fails trivia_qpool _ q); [apply trivia_answers_nonempty| |exact Hblank].
      apply Hsub. eapply list_elem_of_lookup_2, Hj. }
    split; [exact Hbad|].
    pose proof (ask_all_miss "Trivia Helper" answers picks 0 0 j q a Hj Hbad) as Hm.
    rewrite Hlen in Hm. change (correct <= 0 + Z.of_nat 5 - 1) in Hm.
    lia.
  - pose proof (ask_all_count "Trivia Helper" picks answers 0 0) as Hcount.
    rewrite Hlen in Hcount. exact Hcount.
  - pose proof (ask_all_full "Trivia Helper" answers picks 0 0) as Hfull.
    rewrite Hlen in Hfull. exact Hfull.
  - intros s a. unfold answer_ok. cbn [PyStr.truthy].
    rewrite andb_true_iff, negb_true_iff, String.eqb_neq, String.eqb_eq.
    reflexivity.
  - intros a. reflexivity.
Qed.

Lemma trivia_helper_contract_witness :
  0 <= trivia_correct five_positions third_cancelled <= 5
  /\ (answer_ok (third_cancelled 2%nat) "1989" = false
      /\ trivia_correct five_positions third_cancelled <= 4)
  /\ trivia_correct five_positions third_cancelled = 4.
Proof.
  assert (0 <= 4821 <= 9999) as Hr by lia.
  assert ([3; 0; 2; 1]%nat ≡ₚ [0; 1; 2; 3]%nat) as Hp by solve_perm.
  assert (is_sample trivia_qpool 5 five_positions) as Hs by solve_sample.
  destruct (trivia_helper_contract 7 4821 [3; 0; 2; 1]%nat [] five_positions
              third_cancelled Hr Hp Hs)
    as (_ & _ & _ & _ & Hb & _ & Hblank & Hcount & _).
  split; [exact Hb|]. split.
  - apply (Hblank 2%nat "What year did the Berlin Wall fall?" "1989");
      [reflexivity | exact I].
  - rewrite Hcount. reflexivity.
Defined.

(** ** Emergency quiz *)

Section Emergency.

Lemma ask_code_not_asked (picks : list (string * string)) :
  ask_code ∉ asks "Emergency Quiz" picks.
Proof.
  unfold asks. intros Hin. apply list_elem_of_fmap in Hin as (qa & E & _).
  discriminate E.
Qed.

Lemma code_accepted_iff (code : option string) (secret_code : string) :
  code_accepted code secret_code = true
  <-> exists s, code = Some s /\ s <> "" /\ PyStr.strip s = secret_code.
Proof.
  unfold code_accepted. destruct code as [s|]; cbn [PyStr.truthy].
  - rewrite andb_true_iff, negb_true_iff, String.eqb_neq, String.eqb_eq.
    split.
    + intros [Hne Hs]. exists s. auto.
    + intros (s' & [= <-] & Hne & Hs). auto.
  - split; [discriminate|]. intros (s' & E & _). discriminate E.
Qed.

(** The flow once the user has confirmed, by the value of [correct]. *)
Lemma emergency_flow_cases (secret_code : string) (idx : list nat)
    (answers : nat -> option string) (code : option string) :
  let picks := sample emergency_qpool idx in
  let correct := emergency_correct idx answers in
  emergency_quiz_flow secret_code true idx answers code
  = if correct =? 10 then
      if code_accepted code secret_code then
        (ProcessExit 0,
         opening :: asks "Emergency Quiz" picks ++
           [MsgInfo "Perfect" "All correct - enter the 4-digit secret code now.";
            ask_code] ++
           [MsgInfo "Unlocked" "Correct code! Escape key: Ctrl + Shift + K";
            DestroyWindow Root])
      else
        (Returned,
         opening :: asks "Emergency Quiz" picks ++
           [MsgInfo "Perfect" "All correct - enter the 4-digit secret code now.";
            ask_code] ++ [MsgError "Wrong" "Incorrect code."])
    else
      (Returned,
       opening :: asks "Emergency Quiz" picks ++
         [MsgInfo "Emergency Result"
            ("You got " +:+ str_of_int (10 - correct) +:+ "/10 wrong.");
          BringToFront Root]).
Proof.
  intros picks correct. unfold emergency_quiz_flow. cbn [negb]. fold picks.
  pose proof (ask_all_log "Emergency Quiz" answers picks 0 0) as Hlog.
  assert ((ask_all "Emergency Quiz" picks answers 0 0).1 = correct) as Hc
    by reflexivity.
  destruct (ask_all "Emergency Quiz" picks answers 0 0) as [c log].
  cbn [fst snd] in Hlog, Hc. subst c log.
  destruct (Z.eqb_spec correct 10) as [E|E].
  - rewrite E. reflexivity.
  - destruct (Z.eqb_spec (10 - correct) 0) as [E'|E']; [lia|reflexivity].
Qed.

End Emergency.

(** C4: once the user has confirmed, the ten questions are asked; the code
    dialog appears exactly when all ten replies are correct; otherwise the
    flow reports [10 - correct] wrong answers and returns without asking for
    the code.  A user who declines is asked neither the questions nor the
    code. *)
Theorem emergency_prompt_iff_perfect (secret_code : string) (idx : list nat)
    (answers : nat -> option string) (code : option string) :
  is_sample emergency_qpool 10 idx ->
  let picks := sample emergency_qpool idx in
  let correct := emergency_correct idx answers in
  let out := emergency_quiz_flow secret_code true idx answers code in
  length picks = 10%nat
  /\ 0 <= correct <= 10
  /\ (correct = 10
      <-> forall (j : nat) (q a : string),
            picks !! j = Some (q, a) -> answer_ok (answers j) a = true)
  /\ (ask_code ∈ out.2 <-> correct = 10)
  /\ (correct <> 10 ->
      out = (Returned,
             opening :: asks "Emergency Quiz" picks ++
               [MsgInfo "Emergency Result"
                  ("You got " +:+ str_of_int (10 - correct) +:+ "/10 wrong.");
                BringToFront Root]))
  /\ emergency_quiz_flow secret_code false idx answers code
     = (Returned, [opening; BringToFront Root]).
Proof.
  intros Hs picks correct out.
  pose proof (sample_length emergency_qpool 10 idx Hs) as Hlen. fold picks in Hlen.
  pose proof (ask_all_bounds "Emergency Quiz" answers picks 0 0) as Hb.
  rewrite Hlen in Hb. change (0 <= correct <= 0 + Z.of_nat 10) in Hb.
  pose proof (ask_all_full "Emergency Quiz" answers picks 0 0) as Hfull.
  rewrite Hlen in Hfull.
  change (correct = 0 + Z.of_nat 10
          <-> forall (j : nat) (q a : string),
                picks !! j = Some (q, a) -> answer_ok (answers j) a = true) in Hfull.
  pose proof (emergency_flow_cases secret_code idx answers code) as Hflow.
  cbv zeta in Hflow. fold picks correct out in Hflow.
  split; [exact Hlen|]. split; [lia|]. split; [rewrite <- Hfull; lia|].
  split; [|split; [|reflexivity]].
  - rewrite Hflow. destruct (Z.eqb_spec correct 10) as [E|E].
    + split; [intros _; exact E|]. intros _.
      destruct (code_accepted code secret_code); cbn [snd];
        apply elem_of_cons; right; apply elem_of_app; right;
        apply elem_of_app; left; apply list_elem_of_further, list_elem_of_here.
    + split; [|contradiction]. cbn [snd]. intros Hin.
      apply elem_of_cons in Hin as [Hin|Hin]; [discriminate Hin|].
      apply elem_of_app in Hin as [Hin|Hin].
      * destruct (ask_code_not_asked picks Hin).
      * apply elem_of_cons in Hin as [Hin|Hin]; [discriminate Hin|].
        apply elem_of_cons in Hin as [Hin|Hin]; [discriminate Hin|].
        apply elem_of_nil in Hin. destruct Hin.
  - intros Hne. rewrite Hflow.
    destruct (Z.eqb_spec correct 10) as [E|E]; [contradiction|reflexivity].
Qed.

Lemma emergency_prompt_iff_perfect_witness :
  ask_code ∈ (emergency_quiz_flow "4821" true ten_positions
                (knows_all emergency_qpool ten_positions) (Some "0000")).2
  <-> emergency_correct ten_positions
        (knows_all emergency_qpool ten_positions) = 10.
Proof.
  assert (is_sample emergency_qpool 10 ten_positions) as Hs by solve_sample.
  exact (proj1 (proj2 (proj2 (proj2
           (emergency_prompt_iff_perfect "4821" ten_positions
              (knows_all emergency_qpool ten_positions) (Some "0000") Hs))))).
Defined.

(** C3 as amended: once all ten replies are correct, the process exits with
    status 0 exactly when the code dialog was answered with a non-empty
    string whose value with leading and trailing whitespace removed equals
    the secret code; in every other case (another string, an empty one, a
    cancelled dialog) the flow shows "Incorrect code." last and returns. *)
Theorem unlock_iff_stripped_code_matches (secret_code : string)
    (idx : list nat) (answers : nat -> option string) (code : option string) :
  emergency_correct idx answers = 10 ->
  let out := emergency_quiz_flow secret_code true idx answers code in
  (out.1 = ProcessExit 0
   <-> exists s, code = Some s /\ s <> "" /\ PyStr.strip s = secret_code)
  /\ (out.1 = ProcessExit 0
      \/ (out.1 = Returned
          /\ last out.2 = Some (MsgError "Wrong" "Incorrect code."))).
Proof.
  intros Hc out. subst out.
  rewrite (emergency_flow_cases secret_code idx answers code).
  cbv zeta. rewrite Hc. cbn [Z.eqb Pos.eqb].
  rewrite <- code_accepted_iff.
  destruct (code_accepted code secret_code); cbn [fst snd].
  - split; [tauto | left; reflexivity].
  - split; [split; discriminate|]. right. split; [reflexivity|].
    rewrite app_comm_cons, app_assoc. apply last_snoc.
Qed.

Lemma unlock_iff_stripped_code_matches_witness :
  (emergency_quiz_flow "4821" true ten_positions
     (knows_all emergency_qpool ten_positions) (Some "4821")).1 = ProcessExit 0.
Proof.
  assert (emergency_correct ten_positions
            (knows_all emergency_qpool ten_positions) = 10) as Hc
    by (vm_compute; reflexivity).
  apply (proj1 (unlock_iff_stripped_code_matches "4821" ten_positions
                  (knows_all emergency_qpool ten_positions) (Some "4821") Hc)).
  exists "4821". repeat split. discriminate.
Defined.

(** C3 as stated fails: with secret code "4821", a perfect quiz and the reply
    " 4821" (a leading space), the process exits although the reply is not
    the secret code. *)
Lemma unlock_not_exact_match :
  emergency_correct ten_positions (knows_all emergency_qpool ten_positions) = 10
  /\ (emergency_quiz_flow "4821" true ten_positions
        (knows_all emergency_qpool ten_positions) (Some " 4821")).1
     = ProcessExit 0
  /\ " 4821" <> "4821".
Proof. split; [|split]; [vm_compute; reflexivity ..|discriminate]. Qed.

(** ** IP geolocation *)

Section Geolocation.

Variable net : string -> response.

(** The loop over any list of providers: either the first provider that
    does not fail gives the result and is the last one contacted, or all
    fail, all are contacted and the fallback is returned. *)
Lemma fetch_loop_cases (urls : list string) :
  (exists pre url post r,
      urls = pre ++ url :: post
      /\ Forall (fun u => provider_fails (net u) = true) pre
      /\ try_service (net url) = Ok (Some r)
      /\ fetch_loop net urls = (Ok r, pre ++ [url]))
  \/ (Forall (fun u => provider_fails (net u) = true) urls
      /\ fetch_loop net urls = (Ok ("", "Unknown"), urls)).
Proof.
  induction urls as [|url rest IH].
  - right. split; [constructor | reflexivity].
  - cbn [fetch_loop]. unfold provider_fails in *.
    destruct (try_service (net url)) as [[r|]|e] eqn:E.
    + left. exists [], url, rest, r. repeat split; [constructor | exact E].
    + destruct IH as [(pre & u & post & r & -> & Hpre & Hu & Hl)
                     |[Hall Hl]]; rewrite Hl.
      * left. exists (url :: pre), u, post, r.
        repeat split; [constructor; [rewrite E; reflexivity | exact Hpre] | exact Hu].
      * right. split; [constructor; [rewrite E; reflexivity | exact Hall] | reflexivity].
    + destruct IH as [(pre & u & post & r & -> & Hpre & Hu & Hl)
                     |[Hall Hl]]; rewrite Hl.
      * left. exists (url :: pre), u, post, r.
        repeat split; [constructor; [rewrite E; reflexivity | exact Hpre] | exact Hu].
      * right. split; [constructor; [rewrite E; reflexivity | exact Hall] | reflexivity].
Qed.

End Geolocation.

(** C9: the lookup asks its three providers in their fixed order; a provider
    that is unreachable or times out, that sends a body that is not JSON, or
    whose answer names no country, is passed over in silence and the next
    one is asked; the first provider that names a country gives the result
    and no later one is asked; no exception reaches the caller; and when
    every provider fails the lookup does not raise but returns its result
    for "nothing found": the empty city with the country "Unknown". *)
Theorem fetch_ip_location_fallback (net : string -> response) :
  let out := fetch_ip_location net in
  (exists r, out.1 = Ok r)
  /\ out.2 `prefix_of` services
  /\ ((exists pre url post r,
          services = pre ++ url :: post
          /\ Forall (fun u => provider_fails (net u) = true) pre
          /\ try_service (net url) = Ok (Some r)
          /\ out = (Ok r, pre ++ [url]))
      \/ (Forall (fun u => provider_fails (net u) = true) services
          /\ out = (Ok ("", "Unknown"), services)))
  /\ provider_fails Unreachable = true
  /\ provider_fails (Body None) = true
  /\ (forall v, (forall fields, v <> JObject fields) ->
        provider_fails (Body (Some v)) = true).
Proof.
  intros out. subst out. unfold fetch_ip_location.
  pose proof (fetch_loop_cases net services) as Hc.
  split; [|split; [|split; [exact Hc|]]].
  - destruct Hc as [(pre & url & post & r & _ & _ & _ & ->)|[_ ->]]; eauto.
  - destruct Hc as [(pre & url & post & r & E & _ & _ & ->)|[_ ->]]; cbn [snd].
    + rewrite E. exists post. rewrite <- app_assoc. reflexivity.
    + reflexivity.
  - split; [reflexivity|]. split; [reflexivity|].
    intros v Hv. destruct v; try reflexivity. destruct (Hv fields eq_refl).
Qed.

Lemma fetch_ip_location_fallback_witness :
  provider_fails (Body (Some (JArray []))) = true.
Proof.
  apply (proj2 (proj2 (proj2 (proj2 (proj2
           (fetch_ip_location_fallback (fun _ => Unreachable))))))).
  intros fields. discriminate.
Defined.

(** ** The close/minimize guard *)

Section Guard.

Lemma guard_inv_init (r0 r1 : Z) (shuffled : list nat) :
  guard_inv (run_app r0 r1 shuffled).
Proof. unfold guard_inv. cbn. auto. Qed.

(** The counting shared by [on_close_attempt] and [on_unmap]. *)
Lemma attempt_cases (draw : Z) (st : app_state) :
  guard_inv st ->
  let out := on_close_attempt draw st in
  guard_inv out.1
  /\ attempts out.1 = attempts st + 1
  /\ if attempts st =? 0 then
       out.2 = warn_once /\ overlay_open out.1 = false /\ overlays out.1 = []
     else if overlay_open st then
       exists id, active_overlay st = Some (Overlay id)
                  /\ out.2 = [BringToFront (Overlay id)]
                  /\ overlays st = [id] /\ overlays out.1 = [id]
                  /\ overlay_open out.1 = true
     else
       exists id, out.2 = [CreateWindow (Overlay id);
                           AfterFinish (draw * 1000) (Overlay id);
                           BringToFront (Overlay id)]
                  /\ overlays st = [] /\ overlays out.1 = [id]
                  /\ overlay_open out.1 = true
                  /\ active_overlay out.1 = Some (Overlay id)
                  /\ finish_timers out.1 = [id].
Proof.
  intros Hinv out. subst out.
  destruct st as [sc h att op act np ovs nw tm al].
  unfold guard_inv, on_close_attempt, show_overlay_then_reset, set_attempts in *.
  cbn [attempts overlay_open active_overlay overlays finish_timers
       next_window] in *.
  destruct op.
  - destruct Hinv as (id & -> & -> & -> & Hat).
    destruct (Z.eqb_spec (att + 1) 1) as [E|E]; [lia|].
    destruct (Z.eqb_spec att 0) as [E0|E0]; [lia|].
    cbn [fst snd attempts overlay_open active_overlay overlays finish_timers
         bring_to_front].
    split; [exists id; repeat split; auto; lia|].
    split; [reflexivity|]. exists id. auto.
  - destruct Hinv as (-> & -> & -> & Hat).
    destruct (Z.eqb_spec (att + 1) 1) as [E|E];
      destruct (Z.eqb_spec att 0) as [E0|E0]; try lia;
      cbn [fst snd attempts overlay_open active_overlay overlays
           finish_timers next_window List.app].
    + split; [split; [|split; [|split]]; auto; lia|]. auto 10.
    + split; [exists nw; repeat split; lia|].
      split; [reflexivity|]. exists nw. auto 10.
Qed.

Lemma on_unmap_iconic (draw : Z) (st : app_state) :
  on_unmap true draw st
  = ((on_close_attempt draw st).1, AfterDeiconify 50 :: (on_close_attempt draw st).2).
Proof.
  unfold on_unmap, on_close_attempt.
  destruct (attempts (set_attempts (attempts st + 1) st) =? 1); [reflexivity|].
  destruct (show_overlay_then_reset _ _); reflexivity.
Qed.

Lemma finish_cases (id : nat) (st : app_state) :
  guard_inv st -> id ∈ finish_timers st ->
  let out := finish id (drop_timer id st) in
  guard_inv out.1 /\ overlay_open st = true /\ overlays st = [id]
  /\ overlay_open out.1 = false /\ active_overlay out.1 = None
  /\ overlays out.1 = [] /\ attempts out.1 = 0
  /\ out.2 = [DestroyWindow (Overlay id); BringToFront Root].
Proof.
  intros Hinv Hin out. subst out.
  destruct st as [sc h att op act np ovs nw tm al].
  unfold guard_inv, finish, drop_timer in *.
  cbn [fst snd attempts overlay_open active_overlay overlays finish_timers] in *.
  destruct op.
  - destruct Hinv as (id' & -> & -> & -> & Hat).
    apply list_elem_of_singleton in Hin as ->.
    cbn [remove_first].
    assert (filter (fun w : nat => w ≠ id') [id'] = []) as ->.
    { rewrite filter_cons_False by (intros H; apply H; reflexivity).
      reflexivity. }
    rewrite bool_decide_eq_true_2 by reflexivity. auto 12.
  - destruct Hinv as (_ & _ & -> & _).
    apply elem_of_nil in Hin. destruct Hin.
Qed.

Lemma step_guard_inv (e : event) (st : app_state) :
  guard_inv st -> guard_inv (step e st).1.
Proof.
  intros Hinv. unfold step. destruct (alive st); [|exact Hinv]. cbn [negb].
  destruct e as [draw|iconic draw|id| |idx answers|confirm idx answers code
                |confirm net| |].
  - apply (attempt_cases draw st Hinv).
  - destruct iconic; [|exact Hinv]. rewrite on_unmap_iconic.
    apply (attempt_cases draw st Hinv).
  - case_bool_decide as Hin; [|exact Hinv]. apply (finish_cases id st Hinv Hin).
  - destruct (clue_finder (helpers st)); exact Hinv.
  - destruct (trivia_helper (helpers st) idx answers); exact Hinv.
  - destruct (emergency_quiz_flow _ _ _ _ _) as [[|status] log]; exact Hinv.
  - unfold yes_flow. destruct confirm; [|exact Hinv]. cbn [negb].
    destruct (fetch_ip_location net).1 as [[city country]|]; exact Hinv.
  - exact Hinv.
  - exact Hinv.
Qed.

Lemma run_guard_inv (evs : list event) (st : app_state) :
  guard_inv st -> guard_inv (run evs st).1.
Proof.
  revert st. induction evs as [|e evs IH]; intros st Hinv; [exact Hinv|].
  cbn [run]. pose proof (step_guard_inv e st Hinv) as H1.
  destruct (step e st) as [st1 log]. specialize (IH st1 H1).
  destruct (run evs st1) as [st2 logs]. exact IH.
Qed.

End Guard.



(** C2 as amended: three close attempts in a row, with no timer firing in
    between, show the warning, then open one overlay, then bring that same
    overlay to the front; the counter is 1, 2 and then 3; when the timer of
    the overlay fires the counter is 0 again and no overlay is left. *)
Theorem three_closes_one_overlay (r0 r1 : Z) (shuffled : list nat)
    (d1 d2 d3 : Z) :
  let st0 := run_app r0 r1 shuffled in
  let out := run [WmDeleteWindow d1; WmDeleteWindow d2; WmDeleteWindow d3] st0 in
  let fin := step (FinishTimer 0) out.1 in
  out.2 = [warn_once;
           [CreateWindow (Overlay 0); AfterFinish (d2 * 1000) (Overlay 0);
            BringToFront (Overlay 0)];
           [BringToFront (Overlay 0)]]
  /\ attempts (run [WmDeleteWindow d1] st0).1 = 1
  /\ attempts (run [WmDeleteWindow d1; WmDeleteWindow d2] st0).1 = 2
  /\ attempts out.1 = 3
  /\ overlays out.1 = [0%nat] /\ overlay_open out.1 = true
  /\ active_overlay out.1 = Some (Overlay 0) /\ finish_timers out.1 = [0%nat]
  /\ attempts fin.1 = 0 /\ overlay_open fin.1 = false /\ overlays fin.1 = [].
Proof. repeat split. Qed.

(** C2 as stated fails: after the third close attempt the counter is 3, not
    2. *)
Lemma three_closes_counter_is_three :
  attempts (run [WmDeleteWindow 9; WmDeleteWindow 9; WmDeleteWindow 9]
              (run_app 7 4821 [0; 1; 2; 3]%nat)).1 = 3
  /\ attempts (run [WmDeleteWindow 9; WmDeleteWindow 9; WmDeleteWindow 9]
                 (run_app 7 4821 [0; 1; 2; 3]%nat)).1 <> 2.
Proof. split; [reflexivity | discriminate]. Qed.

(** ** Clue and trivia patterns together *)

Section Rebuild.

Lemma four_char_not_mask (a b c d : Z) (i : nat) :
  In a ten -> In b ten -> In c ten -> In d ten -> (i < 4)%nat ->
  char_at (four a b c d) i <> Some "*"%char.
Proof.
  intros Ha Hb Hc Hd Hi.
  apply digit_char_not_mask in Ha, Hb, Hc, Hd.
  destruct i as [|[|[|[|i]]]]; try lia; cbn; congruence.
Qed.

Lemma step_trivia_perfect (st : app_state) (idx : list nat)
    (answers : nat -> option string) (p : string) :
  alive st = true -> trivia_correct idx answers = 5 ->
  pattern_of (secret (helpers st)) (trivia_positions (helpers st)) = Ok p ->
  (step (ClickTriviaHelper idx answers) st).2
  = asks "Trivia Helper" (sample trivia_qpool idx) ++
      [MsgInfo "Trivia Helper" ("Passed! Revealed: " +:+ p); BringToFront Root].
Proof.
  intros Hal Hc Hp. unfold step. rewrite Hal. cbn [negb].
  unfold trivia_helper.
  pose proof (ask_all_log "Trivia Helper" answers (sample trivia_qpool idx) 0 0) as Hlog.
  unfold trivia_correct in Hc.
  destruct (ask_all "Trivia Helper" (sample trivia_qpool idx) answers 0 0) as [c log].
  cbn [fst snd] in Hlog, Hc. subst c log. cbn [Z.eqb Pos.eqb].
  rewrite Hp. reflexivity.
Qed.

Lemma step_emergency_unlock (st : app_state) (idx : list nat)
    (answers : nat -> option string) (code : option string) :
  alive st = true -> emergency_correct idx answers = 10 ->
  code_accepted code (SECRET_CODE st) = true ->
  (emergency_quiz_flow (SECRET_CODE st) true idx answers code).1 = ProcessExit 0
  /\ alive (step (ClickEmergency true idx answers code) st).1 = false.
Proof.
  intros Hal Hc Hacc. unfold step. rewrite Hal. cbn [negb].
  rewrite (emergency_flow_cases (SECRET_CODE st) idx answers code).
  cbv zeta. rewrite Hc, Hacc. cbn [Z.eqb Pos.eqb]. split; reflexivity.
Qed.

End Rebuild.

(** C10: at any point of a run the helpers hold the very code the emergency
    quiz compares with; the clue pattern and the pattern shown after a
    perfect trivia score, laid over each other, give that code; every
    position shows its digit in exactly one of the two patterns; and the
    overlaid string, typed into the code dialog after a perfect emergency
    quiz, ends the process. *)
Theorem patterns_rebuild_code (r0 r1 : Z) (shuffled : list nat)
    (evs : list event) :
  0 <= r1 <= 9999 -> shuffled ≡ₚ [0; 1; 2; 3]%nat ->
  let st := (run evs (run_app r0 r1 shuffled)).1 in
  let self := helpers st in
  secret self = SECRET_CODE st
  /\ SECRET_CODE st = new_secret_code r1
  /\ exists p1 p2 : string,
       (alive st = true ->
        (step ClickClueFinder st).2
        = [MsgInfo "Clue Finder" ("Clue revealed: " +:+ p1); BringToFront Root])
       /\ (forall idx answers,
             alive st = true -> trivia_correct idx answers = 5 ->
             (step (ClickTriviaHelper idx answers) st).2
             = asks "Trivia Helper" (sample trivia_qpool idx) ++
                 [MsgInfo "Trivia Helper" ("Passed! Revealed: " +:+ p2);
                  BringToFront Root])
       /\ overlay_patterns p1 p2 = SECRET_CODE st
       /\ (forall i : nat, (i < 4)%nat ->
             (char_at p1 i = Some "*"%char
              /\ char_at p2 i = char_at (SECRET_CODE st) i
              /\ char_at p2 i <> Some "*"%char)
             \/ (char_at p2 i = Some "*"%char
                 /\ char_at p1 i = char_at (SECRET_CODE st) i
                 /\ char_at p1 i <> Some "*"%char))
       /\ (forall idx answers,
             alive st = true -> emergency_correct idx answers = 10 ->
             (emergency_quiz_flow (SECRET_CODE st) true idx answers
                (Some (overlay_patterns p1 p2))).1 = ProcessExit 0
             /\ alive (step (ClickEmergency true idx answers
                               (Some (overlay_patterns p1 p2))) st).1 = false).
Proof.
  intros Hr Hp st self. subst self.
  pose proof (run_keeps evs (run_app r0 r1 shuffled)) as [Kc Kh]. fold st in Kc, Kh.
  destruct (run_app_shape r0 r1 shuffled Hr Hp)
    as (a & b & c & d & Ec & Es & Ha & Hb & Hc & Hd & Hs & Hstrip).
  rewrite <- Kc in Ec, Hstrip. rewrite <- Kh in Es, Hs.
  split; [congruence|]. split; [rewrite Kc; reflexivity|].
  destruct (pattern_of_split (PyStr.digit_char a) (PyStr.digit_char b)
              (PyStr.digit_char c) (PyStr.digit_char d) _ Hs)
    as (p1 & p2 & H1 & H2 & _ & _ & Hone).
  cbn [fst snd] in H1, H2.
  fold (four a b c d) in H1, H2, Hone.
  assert (overlay_patterns p1 p2 = SECRET_CODE st) as Hover.
  { rewrite Ec.
    apply (overlay_split (PyStr.digit_char a) (PyStr.digit_char b)
             (PyStr.digit_char c) (PyStr.digit_char d)
             (clue_positions (helpers st), trivia_positions (helpers st)) p1 p2);
      auto using digit_char_not_mask. }
  exists p1, p2. split; [|split; [|split; [exact Hover|split]]].
  - intros Hal. apply step_clue_finder; [exact Hal|]. rewrite Es. exact H1.
  - intros idx answers Hal Hc5. apply step_trivia_perfect; [exact Hal|exact Hc5|].
    rewrite Es. exact H2.
  - intros i Hi. rewrite Ec.
    pose proof (four_char_not_mask a b c d i Ha Hb Hc Hd Hi) as Hne.
    destruct (Hone i Hi) as [[Hm He]|[Hm He]]; [left|right];
      (split; [exact Hm|]; split; [exact He|]; rewrite He; exact Hne).
  - intros idx answers Hal Hc10. rewrite Hover.
    apply step_emergency_unlock; [exact Hal|exact Hc10|].
    apply code_accepted_iff. exists (SECRET_CODE st).
    split; [reflexivity|]. split; [rewrite Ec; discriminate | exact Hstrip].
Qed.

Lemma patterns_rebuild_code_witness :
  secret (helpers (run [ClickClueFinder] (run_app 7 4821 [3; 0; 2; 1]%nat)).1)
  = SECRET_CODE (run [ClickClueFinder] (run_app 7 4821 [3; 0; 2; 1]%nat)).1.
Proof.
  assert (0 <= 4821 <= 9999) as Hr by lia.
  assert ([3; 0; 2; 1]%nat ≡ₚ [0; 1; 2; 3]%nat) as Hp by solve_perm.
  exact (proj1 (patterns_rebuild_code 7 4821 [3; 0; 2; 1]%nat [ClickClueFinder]
                  Hr Hp)).
Defined.

(** * Further properties *)

(** ** Patterns for any secret and any positions *)

Section PatternGeneral.

Lemma length_list_ascii (s : string) :
  length (list_ascii_of_string s) = String.length s.
Proof. induction s as [|c s IH]; [reflexivity|]. cbn. rewrite IH. reflexivity. Qed.

Lemma length_string_of_list (l : list ascii) :
  String.length (string_of_list_ascii l) = length l.
Proof. induction l as [|c l IH]; [reflexivity|]. cbn. rewrite IH. reflexivity. Qed.

Lemma reveal_into_ok (secret : string) (positions : list nat) (s : list ascii) :
  Forall (in_range secret (length s)) positions ->
  exists s', reveal_into secret positions s = Ok s'
             /\ length s' = length s
             /\ forall i : nat, (i < length s)%nat ->
                  s' !! i = if bool_decide (i ∈ positions)
                            then list_ascii_of_string secret !! i else s !! i.
Proof.
  revert s. induction positions as [|pos rest IH]; intros s Hall.
  - exists s. split; [reflexivity|]. split; [reflexivity|].
    intros i Hi. rewrite bool_decide_eq_false_2 by apply not_elem_of_nil.
    reflexivity.
  - apply Forall_cons in Hall as [[Hs Hsec] Hall].
    cbn [reveal_into].
    destruct (list_ascii_of_string secret !! pos) as [c|] eqn:Ec.
    2:{ apply lookup_ge_None in Ec. rewrite length_list_ascii in Ec. lia. }
    assert ((pos <? length s)%nat = true) as -> by (apply Nat.ltb_lt; exact Hs).
    destruct (IH (<[pos := c]> s)) as (s' & Hr & Hlen & Hget).
    { rewrite length_insert. exact Hall. }
    rewrite length_insert in Hlen, Hget.
    exists s'. split; [exact Hr|]. split; [exact Hlen|].
    intros i Hi. rewrite (Hget i Hi).
    destruct (decide (i ∈ rest)) as [Hin|Hnin].
    + rewrite !bool_decide_eq_true_2; [reflexivity| |exact Hin].
      apply elem_of_cons. right. exact Hin.
    + rewrite (bool_decide_eq_false_2 (i ∈ rest)) by exact Hnin.
      destruct (decide (i = pos)) as [->|Hne].
      * rewrite bool_decide_eq_true_2 by apply list_elem_of_here.
        rewrite list_lookup_insert_eq by exact Hs. symmetry. exact Ec.
      * rewrite bool_decide_eq_false_2.
        -- apply list_lookup_insert_ne. congruence.
        -- intros Hin. apply elem_of_cons in Hin as [?|?]; contradiction.
Qed.

Lemma reveal_into_raise (secret : string) (positions : list nat) (s : list ascii) :
  ~ Forall (in_range secret (length s)) positions ->
  reveal_into secret positions s = Raise IndexError.
Proof.
  revert s. induction positions as [|pos rest IH]; intros s Hbad.
  - destruct Hbad. constructor.
  - cbn [reveal_into].
    destruct (list_ascii_of_string secret !! pos) as [c|] eqn:Ec; [|reflexivity].
    destruct (Nat.ltb_spec pos (length s)) as [Hs|Hs]; [|reflexivity].
    apply IH. rewrite length_insert. intros Hall. apply Hbad.
    constructor; [|exact Hall]. split; [exact Hs|].
    apply lookup_lt_Some in Ec. rewrite length_list_ascii in Ec. exact Ec.
Qed.

End PatternGeneral.

(** X1: for any secret and any list of positions, the pattern is computed
    exactly when every position is below 4 and below the length of the
    secret, and then it has four characters, the character of the secret at
    each listed position and ['*'] at the others; in every other case the
    indexing raises [IndexError]. *)
Theorem pattern_of_any_secret (secret : string) (positions : list nat) :
  (Forall (fun pos => (pos < 4)%nat /\ (pos < String.length secret)%nat) positions
   -> exists p, pattern_of secret positions = Ok p /\ masks secret positions p)
  /\ (~ Forall (fun pos => (pos < 4)%nat /\ (pos < String.length secret)%nat)
          positions
      -> pattern_of secret positions = Raise IndexError).
Proof.
  unfold pattern_of. split.
  - intros Hall.
    destruct (reveal_into_ok secret positions (list_ascii_of_string "****") Hall)
      as (s' & Hr & Hlen & Hget).
    rewrite Hr. exists (string_of_list_ascii s'). split; [reflexivity|].
    split.
    + rewrite length_string_of_list. exact Hlen.
    + intros i Hi. unfold char_at.
      rewrite list_ascii_of_string_of_list_ascii, (Hget i Hi).
      destruct (bool_decide (i ∈ positions)); [reflexivity|].
      destruct i as [|[|[|[|i]]]]; try reflexivity. cbn in Hi. lia.
  - intros Hbad.
    rewrite (reveal_into_raise secret positions (list_ascii_of_string "****") Hbad).
    reflexivity.
Qed.

Lemma pattern_of_any_secret_witness :
  (exists p, pattern_of "12345" [0; 0; 2]%nat = Ok p
             /\ masks "12345" [0; 0; 2]%nat p)
  /\ pattern_of "12" [0; 3]%nat = Raise IndexError.
Proof.
  split.
  - apply (proj1 (pattern_of_any_secret "12345" [0; 0; 2]%nat)).
    repeat constructor.
  - apply (proj2 (pattern_of_any_secret "12" [0; 3]%nat)).
    intros H. apply Forall_cons in H as [_ H]. apply Forall_cons in H as [[_ H] _].
    cbn in H. lia.
Defined.

(** ** The quiz test and the score *)

Section QuizMore.

Lemma lower_char_idem (c : ascii) :
  PyStr.lower_char (PyStr.lower_char c) = PyStr.lower_char c.
Proof. destruct c as [[] [] [] [] [] [] [] []]; reflexivity. Qed.

Lemma lower_char_space (c : ascii) :
  PyStr.is_space (PyStr.lower_char c) = PyStr.is_space c.
Proof. destruct c as [[] [] [] [] [] [] [] []]; reflexivity. Qed.

Lemma lower_idem (s : string) : PyStr.lower (PyStr.lower s) = PyStr.lower s.
Proof.
  induction s as [|c s IH]; [reflexivity|].
  cbn [PyStr.lower]. rewrite lower_char_idem, IH. reflexivity.
Qed.

Lemma lower_lstrip (s : string) :
  PyStr.lstrip (PyStr.lower s) = PyStr.lower (PyStr.lstrip s).
Proof.
  induction s as [|c s IH]; [reflexivity|].
  cbn [PyStr.lower PyStr.lstrip]. rewrite lower_char_space.
  destruct (PyStr.is_space c); [exact IH | reflexivity].
Qed.

Lemma lower_rev_app (s1 s2 : string) :
  PyStr.lower (String.rev_app s1 s2)
  = String.rev_app (PyStr.lower s1) (PyStr.lower s2).
Proof.
  revert s2. induction s1 as [|c s1 IH]; intros s2; [reflexivity|].
  cbn [String.rev_app PyStr.lower]. rewrite IH. reflexivity.
Qed.

Lemma lower_rev (s : string) :
  PyStr.lower (String.rev s) = String.rev (PyStr.lower s).
Proof. unfold String.rev. apply lower_rev_app. Qed.

Lemma lower_strip (s : string) :
  PyStr.strip (PyStr.lower s) = PyStr.lower (PyStr.strip s).
Proof.
  unfold PyStr.strip, PyStr.rstrip.
  rewrite lower_lstrip, <- lower_rev, lower_lstrip, lower_rev. reflexivity.
Qed.

Lemma lower_truthy (s : string) :
  PyStr.truthy (Some (PyStr.lower s)) = PyStr.truthy (Some s).
Proof. destruct s; reflexivity. Qed.

Lemma filter_split (f : nat -> bool) (l : list nat) :
  (length (List.filter f l) + length (List.filter (fun j => negb (f j)) l)
   = length l)%nat.
Proof.
  induction l as [|j l IH]; [reflexivity|].
  cbn [List.filter]. destruct (f j); cbn [negb length]; lia.
Qed.

Lemma pool_answer_ok (pool : list (string * string)) (idx : list nat) (k : nat) :
  Forall (fun qa => answer_ok (Some qa.2) qa.2 = true) pool ->
  length (sample pool idx) = k ->
  forall title, (ask_all title (sample pool idx) (knows_all pool idx) 0 0).1
                = Z.of_nat k.
Proof.
  intros Hpool Hlen title. rewrite <- Hlen.
  apply (proj2 (ask_all_full title (knows_all pool idx) (sample pool idx) 0 0)).
  intros j q a Hj. cbn [Nat.add]. unfold knows_all. rewrite Hj. cbn.
  rewrite Forall_forall in Hpool.
  apply (Hpool (q, a)).
  apply list_elem_of_lookup_2 in Hj. apply sample_elem in Hj as (i & _ & Hi).
  eapply list_elem_of_lookup_2, Hi.
Qed.

End QuizMore.

(** X2: both quizzes can be passed whatever questions are drawn: a user who
    gives the stored answer to each question scores 5 of 5 in the trivia
    helper and 10 of 10 in the emergency quiz, and then the emergency flow
    asks for the code. *)
Theorem quizzes_can_be_passed (idx5 idx10 : list nat) (secret_code : string)
    (code : option string) :
  is_sample trivia_qpool 5 idx5 -> is_sample emergency_qpool 10 idx10 ->
  trivia_correct idx5 (knows_all trivia_qpool idx5) = 5
  /\ emergency_correct idx10 (knows_all emergency_qpool idx10) = 10
  /\ ask_code ∈ (emergency_quiz_flow secret_code true idx10
                   (knows_all emergency_qpool idx10) code).2.
Proof.
  intros H5 H10.
  pose proof (sample_length trivia_qpool 5 idx5 H5) as L5.
  pose proof (sample_length emergency_qpool 10 idx10 H10) as L10.
  assert (trivia_correct idx5 (knows_all trivia_qpool idx5) = 5) as E5.
  { apply (pool_answer_ok trivia_qpool idx5 5 ltac:(repeat constructor) L5). }
  assert (emergency_correct idx10 (knows_all emergency_qpool idx10) = 10) as E10.
  { apply (pool_answer_ok emergency_qpool idx10 10 ltac:(repeat constructor) L10). }
  split; [exact E5|]. split; [exact E10|].
  rewrite (emergency_flow_cases secret_code idx10 _ code). cbv zeta.
  rewrite E10. cbn [Z.eqb Pos.eqb].
  destruct (code_accepted code secret_code); cbn [snd];
    apply elem_of_cons; right; apply elem_of_app; right;
    apply elem_of_app; left; apply list_elem_of_further, list_elem_of_here.
Qed.

Lemma quizzes_can_be_passed_witness :
  trivia_correct five_positions (knows_all trivia_qpool five_positions) = 5
  /\ emergency_correct ten_positions (knows_all emergency_qpool ten_positions) = 10.
Proof.
  assert (is_sample trivia_qpool 5 five_positions) as H5 by solve_sample.
  assert (is_sample emergency_qpool 10 ten_positions) as H10 by solve_sample.
  destruct (quizzes_can_be_passed five_positions ten_positions "4821" None H5 H10)
    as (E5 & E10 & _).
  split; [exact E5 | exact E10].
Defined.

(** X3: a reply is judged without regard to letter case: lower-casing the
    reply, or the stored answer, never changes the verdict of the test. *)
Theorem answer_ok_ignores_case (s a : string) :
  answer_ok (Some (PyStr.lower s)) a = answer_ok (Some s) a
  /\ answer_ok (Some s) (PyStr.lower a) = answer_ok (Some s) a.
Proof.
  unfold answer_ok. split.
  - rewrite lower_truthy, lower_strip, lower_idem. reflexivity.
  - rewrite lower_idem. reflexivity.
Qed.

(** X4: the score is the number of questions whose reply passes the test:
    the trivia count is the number of passing replies among the five, and the
    number the emergency flow reports as wrong is the number of failing
    replies among the ten. *)
Theorem score_counts_passing_replies (idx5 idx10 : list nat)
    (answers : nat -> option string) :
  is_sample trivia_qpool 5 idx5 -> is_sample emergency_qpool 10 idx10 ->
  trivia_correct idx5 answers
  = Z.of_nat (length (List.filter (passes (sample trivia_qpool idx5) answers)
                        (seq 0 5)))
  /\ 10 - emergency_correct idx10 answers
     = Z.of_nat (length (List.filter
                           (fun j => negb (passes (sample emergency_qpool idx10)
                                             answers j))
                           (seq 0 10))).
Proof.
  intros H5 H10.
  pose proof (sample_length trivia_qpool 5 idx5 H5) as L5.
  pose proof (sample_length emergency_qpool 10 idx10 H10) as L10.
  unfold trivia_correct, emergency_correct.
  rewrite !ask_all_count, L5, L10.
  assert (shift 0 answers = answers) as -> by reflexivity.
  split; [lia|].
  pose proof (filter_split (passes (sample emergency_qpool idx10) answers) (seq 0 10))
    as Hs.
  rewrite length_seq in Hs. lia.
Qed.

Lemma score_counts_passing_replies_witness :
  trivia_correct five_positions third_cancelled
  = Z.of_nat (length (List.filter (passes (sample trivia_qpool five_positions)
                                     third_cancelled) (seq 0 5))).
Proof.
  assert (is_sample trivia_qpool 5 five_positions) as H5 by solve_sample.
  assert (is_sample emergency_qpool 10 ten_positions) as H10 by solve_sample.
  exact (proj1 (score_counts_passing_replies five_positions ten_positions
                  third_cancelled H5 H10)).
Defined.

(** ** The event loop as a whole *)

Section Loop.

Lemma show_overlay_alive (ms : Z) (st : app_state) :
  alive (show_overlay_then_reset ms st).1 = alive st.
Proof. unfold show_overlay_then_reset. destruct (overlay_open st); reflexivity. Qed.

Lemma on_close_attempt_alive (draw : Z) (st : app_state) :
  alive (on_close_attempt draw st).1 = alive st.
Proof.
  unfold on_close_attempt. case_match; [reflexivity|].
  apply (show_overlay_alive _ (set_attempts _ st)).
Qed.

Lemma yes_flow_cases (confirm : bool) (net : string -> response) (st : app_state) :
  exists city country,
    (fetch_ip_location net).1 = Ok (city, country)
    /\ yes_flow confirm net st
       = if confirm then
           Ok ({| SECRET_CODE := SECRET_CODE st; helpers := helpers st;
                  attempts := attempts st; overlay_open := overlay_open st;
                  active_overlay := active_overlay st;
                  active_notepad := Some (Notepad (next_window st));
                  overlays := overlays st; next_window := S (next_window st);
                  finish_timers := finish_timers st; alive := alive st |},
               AskYesNo "Confirm" "Are you sure you want to answer YES?"
                 :: (if nonempty city then [OpenBrowserTab city] else []) ++
                    [CreateWindow (Notepad (next_window st));
                     BringToFront (Notepad (next_window st))])
         else Ok (st, [AskYesNo "Confirm" "Are you sure you want to answer YES?";
                       BringToFront Root]).
Proof.
  unfold yes_flow, fetch_ip_location.
  destruct (fetch_loop_cases net services)
    as [(pre & url & post & [city country] & _ & _ & _ & ->)|[_ ->]];
    [exists city, country | exists "", "Unknown"];
    (split; [reflexivity|]); destruct confirm; reflexivity.
Qed.

Lemma quiet_asks (title : string) (picks : list (string * string))
    (tail : list ui_event) :
  quiet tail -> quiet (asks title picks ++ tail).
Proof.
  intros [Hw Ho]. unfold quiet, asks. rewrite !List.filter_app, Hw, Ho.
  split; (induction picks as [|qa picks IH]; [reflexivity | exact IH]).
Qed.

Lemma quiet_opening (log : list ui_event) : quiet log -> quiet (opening :: log).
Proof. intros H. exact H. Qed.

Lemma quiet_trivia (self : SecretHelpers) (idx : list nat)
    (answers : nat -> option string) (log : list ui_event) :
  trivia_helper self idx answers = Ok log -> quiet log.
Proof.
  unfold trivia_helper.
  pose proof (ask_all_log "Trivia Helper" answers (sample trivia_qpool idx) 0 0) as Hlog.
  destruct (ask_all "Trivia Helper" (sample trivia_qpool idx) answers 0 0) as [c asked].
  cbn [snd] in Hlog. subst asked.
  destruct (c =? 5).
  - destruct (pattern_of _ _) as [p|e]; [|discriminate].
    intros [= <-]. apply quiet_asks. split; reflexivity.
  - intros [= <-]. apply quiet_asks. split; reflexivity.
Qed.

Lemma quiet_emergency (secret_code : string) (confirm : bool) (idx : list nat)
    (answers : nat -> option string) (code : option string) :
  quiet (emergency_quiz_flow secret_code confirm idx answers code).2.
Proof.
  destruct confirm; [|split; reflexivity].
  rewrite (emergency_flow_cases secret_code idx answers code). cbv zeta.
  destruct (_ =? 10); [destruct (code_accepted _ _)|]; cbn [snd];
    apply quiet_opening, quiet_asks; split; reflexivity.
Qed.

End Loop.

(** X5: while the process is alive, an event ends it exactly when it is the
    panic key or an emergency flow that was confirmed, answered with ten
    correct replies and given an accepted code; an emergency flow that does
    not unlock leaves the whole state as it was, so it can be tried again. *)
Theorem process_ends_only_by_panic_or_unlock (e : event) (st : app_state) :
  alive st = true ->
  (alive (step e st).1 = false <-> e = PanicKey \/ unlocks st e)
  /\ (forall confirm idx answers code,
        e = ClickEmergency confirm idx answers code -> ~ unlocks st e ->
        (step e st).1 = st).
Proof.
  intros Hal. unfold step. rewrite Hal. cbn [negb].
  destruct e as [draw|iconic draw|id| |idx answers|confirm idx answers code
                |confirm net| |]; cbn [unlocks].
  - rewrite on_close_attempt_alive, Hal.
    split; [split; [discriminate | intros [H|[]]; discriminate H]|].
    intros ? ? ? ? H. discriminate H.
  - assert (alive (on_unmap iconic draw st).1 = true) as ->.
    { destruct iconic; [|exact Hal].
      rewrite on_unmap_iconic. cbn [fst]. rewrite on_close_attempt_alive. exact Hal. }
    split; [split; [discriminate | intros [H|[]]; discriminate H]|].
    intros ? ? ? ? H. discriminate H.
  - assert (alive (if bool_decide (id ∈ finish_timers st)
                   then finish id (drop_timer id st) else (st, [])).1 = true) as ->.
    { case_bool_decide; exact Hal. }
    split; [split; [discriminate | intros [H|[]]; discriminate H]|].
    intros ? ? ? ? H. discriminate H.
  - assert (alive (guarded st (clue_finder (helpers st) ≫= λ log, Ok (st, log))).1
            = true) as ->.
    { destruct (clue_finder (helpers st)); exact Hal. }
    split; [split; [discriminate | intros [H|[]]; discriminate H]|].
    intros ? ? ? ? H. discriminate H.
  - assert (alive (guarded st (trivia_helper (helpers st) idx answers
                               ≫= λ log, Ok (st, log))).1 = true) as ->.
    { destruct (trivia_helper (helpers st) idx answers); exact Hal. }
    split; [split; [discriminate | intros [H|[]]; discriminate H]|].
    intros ? ? ? ? H. discriminate H.
  - destruct confirm.
    + rewrite (emergency_flow_cases (SECRET_CODE st) idx answers code). cbv zeta.
      destruct (Z.eqb_spec (emergency_correct idx answers) 10) as [E|E].
      * destruct (code_accepted code (SECRET_CODE st)) eqn:Hacc; cbn [fst exit_process alive].
        -- split; [split; [auto | reflexivity]|].
           intros ? ? ? ? _ Hno. destruct Hno. auto.
        -- rewrite Hal. split; [|reflexivity].
           split; [discriminate|]. intros [H|(_ & _ & H)]; discriminate H.
      * cbn [fst]. rewrite Hal. split; [|reflexivity].
        split; [discriminate|]. intros [H|(_ & H & _)]; [discriminate H|contradiction].
    + cbn [emergency_quiz_flow negb fst]. rewrite Hal. split; [|reflexivity].
      split; [discriminate|]. intros [H|(H & _)]; discriminate H.
  - assert (alive (guarded st (yes_flow confirm net st)).1 = true) as ->.
    { destruct (yes_flow_cases confirm net st) as (city & country & _ & ->).
      destruct confirm; exact Hal. }
    split; [split; [discriminate | intros [H|[]]; discriminate H]|].
    intros ? ? ? ? H. discriminate H.
  - cbn [fst]. rewrite Hal.
    split; [split; [discriminate | intros [H|[]]; discriminate H]|].
    intros ? ? ? ? H. discriminate H.
  - cbn [fst exit_process alive].
    split; [split; [auto | reflexivity]|]. intros ? ? ? ? H. discriminate H.
Qed.

Lemma process_ends_only_by_panic_or_unlock_witness :
  alive (step PanicKey (run_app 7 4821 [3; 0; 2; 1]%nat)).1 = false.
Proof.
  apply (proj1 (process_ends_only_by_panic_or_unlock PanicKey
                  (run_app 7 4821 [3; 0; 2; 1]%nat) eq_refl)).
  left. reflexivity.
Defined.

Section Lookup.

Lemma try_service_country (r : response) (city country : string) :
  try_service r = Ok (Some (city, country)) -> country <> "".
Proof.
  unfold try_service. destruct r as [|parsed]; [discriminate|].
  destruct (first_field _ "city" "region") as [c|e]; [|discriminate].
  destruct (first_field _ "country_name" "country") as [k|e]; [|discriminate].
  cbn. unfold nonempty.
  destruct (String.eqb_spec k "") as [->|Hk].
  - rewrite andb_false_r. cbn. discriminate.
  - destruct (negb (String.eqb c "")); cbn; intros [= _ <-]; exact Hk.
Qed.

End Lookup.

(** X6: the lookup always names a country: the country it returns is never
    the empty string, and a city is returned only together with the country
    that the same provider gave with it. *)
Theorem fetch_ip_location_names_a_country (net : string -> response) :
  exists city country : string,
    (fetch_ip_location net).1 = Ok (city, country)
    /\ country <> ""
    /\ (city <> "" ->
        exists url, url ∈ services
                    /\ try_service (net url) = Ok (Some (city, country))).
Proof.
  unfold fetch_ip_location.
  destruct (fetch_loop_cases net services)
    as [(pre & url & post & [city country] & E & _ & Hu & ->)|[_ ->]].
  - exists city, country. split; [reflexivity|]. split.
    + exact (try_service_country _ _ _ Hu).
    + intros _. exists url. split; [|exact Hu].
      rewrite E. apply elem_of_app. right. apply list_elem_of_here.
  - exists "", "Unknown". split; [reflexivity|]. split; [discriminate|].
    intros H. destruct H. reflexivity.
Qed.

Lemma fetch_ip_location_names_a_country_witness :
  exists city country : string,
    (fetch_ip_location city_only).1 = Ok (city, country) /\ country <> "".
Proof.
  destruct (fetch_ip_location_names_a_country city_only)
    as (city & country & E & Hc & _).
  exists city, country. split; [exact E | exact Hc].
Defined.

(** X7: the Yes flow never raises, whatever the providers do: a user who
    declines changes nothing; a user who confirms always gets the notepad,
    recorded in [active_notepad], with the counter and the overlay flag
    untouched, and a browser tab is opened exactly when the lookup found a
    city. *)
Theorem yes_flow_always_opens_notepad (net : string -> response)
    (st : app_state) :
  yes_flow false net st
  = Ok (st, [AskYesNo "Confirm" "Are you sure you want to answer YES?";
             BringToFront Root])
  /\ exists st' log city country,
       yes_flow true net st = Ok (st', log)
       /\ (fetch_ip_location net).1 = Ok (city, country)
       /\ active_notepad st' = Some (Notepad (next_window st))
       /\ CreateWindow (Notepad (next_window st)) ∈ log
       /\ attempts st' = attempts st /\ overlay_open st' = overlay_open st
       /\ overlays st' = overlays st /\ finish_timers st' = finish_timers st
       /\ (OpenBrowserTab city ∈ log <-> city <> "")
       /\ (forall q, OpenBrowserTab q ∈ log -> q = city).
Proof.
  split.
  - destruct (yes_flow_cases false net st) as (city & country & _ & E). exact E.
  - destruct (yes_flow_cases true net st) as (city & country & Hf & E).
    eexists _, _, city, country. split; [exact E|]. split; [exact Hf|].
    cbn [active_notepad attempts overlay_open overlays finish_timers].
    split; [reflexivity|].
    unfold nonempty.
    destruct (String.eqb_spec city "") as [Hc|Hc]; cbn [negb List.app].
    + split; [repeat constructor|]. repeat (split; [reflexivity|]).
      split; [split|].
      * intros Hin. repeat (apply elem_of_cons in Hin as [Hin|Hin]; [discriminate Hin|]).
        apply elem_of_nil in Hin. destruct Hin.
      * intros Hne. contradiction.
      * intros q Hin.
        repeat (apply elem_of_cons in Hin as [Hin|Hin]; [discriminate Hin|]).
        apply elem_of_nil in Hin. destruct Hin.
    + split; [repeat constructor|]. repeat (split; [reflexivity|]).
      split; [split|].
      * intros _. exact Hc.
      * intros _. repeat constructor.
      * intros q Hin.
        apply elem_of_cons in Hin as [Hin|Hin]; [discriminate Hin|].
        apply elem_of_cons in Hin as [Hin|Hin]; [congruence|].
        repeat (apply elem_of_cons in Hin as [Hin|Hin]; [discriminate Hin|]).
        apply elem_of_nil in Hin. destruct Hin.
Qed.

Lemma yes_flow_always_opens_notepad_witness :
  yes_flow false city_only (run_app 7 4821 [3; 0; 2; 1]%nat)
  = Ok (run_app 7 4821 [3; 0; 2; 1]%nat,
        [AskYesNo "Confirm" "Are you sure you want to answer YES?";
         BringToFront Root]).
Proof.
  exact (proj1 (yes_flow_always_opens_notepad city_only
                  (run_app 7 4821 [3; 0; 2; 1]%nat))).
Defined.

(** ** The visual glitch *)

Section Glitch.

Lemma on_close_attempt_notepad (draw : Z) (st : app_state) :
  active_notepad (on_close_attempt draw st).1 = active_notepad st.
Proof.
  unfold on_close_attempt. case_match; [reflexivity|].
  unfold show_overlay_then_reset. case_match; reflexivity.
Qed.

Lemma step_notepad_sticky (e : event) (st : app_state) :
  active_notepad st <> None -> active_notepad (step e st).1 <> None.
Proof.
  intros Hn. unfold step. destruct (alive st); [|exact Hn]. cbn [negb].
  destruct e as [draw|iconic draw|id| |idx answers|confirm idx answers code
                |confirm net| |].
  - rewrite on_close_attempt_notepad. exact Hn.
  - destruct iconic; [|exact Hn]. rewrite on_unmap_iconic. cbn [fst].
    rewrite on_close_attempt_notepad. exact Hn.
  - case_bool_decide; exact Hn.
  - destruct (clue_finder (helpers st)); exact Hn.
  - destruct (trivia_helper (helpers st) idx answers); exact Hn.
  - destruct (emergency_quiz_flow _ _ _ _ _) as [[|status] log]; exact Hn.
  - destruct (yes_flow_cases confirm net st) as (city & country & _ & ->).
    destruct confirm; [discriminate | exact Hn].
  - exact Hn.
  - exact Hn.
Qed.

Lemma run_notepad_sticky (evs : list event) (st : app_state) :
  active_notepad st <> None -> active_notepad (run evs st).1 <> None.
Proof.
  revert st. induction evs as [|e evs IH]; intros st Hn; [exact Hn|].
  cbn [run]. pose proof (step_notepad_sticky e st Hn) as H1.
  destruct (step e st) as [st1 log]. specialize (IH st1 H1).
  destruct (run evs st1) as [st2 logs]. exact IH.
Qed.

Lemma shake_step (fuel : nat) (x0 y0 : Z) (offset : Z -> Z * Z)
    (color : Z -> string) (i : Z) :
  i < 10 ->
  shake (S fuel) x0 y0 offset color i
  = SetGeometry (x0 + (offset i).1) (y0 + (offset i).2) :: Wait 20
      :: shake fuel x0 y0 offset color (i + 1).
Proof.
  intros Hi. cbn [shake]. destruct (Z.leb_spec 10 i) as [H|H]; [lia|].
  destruct (offset i) as [dx dy]. reflexivity.
Qed.

Lemma shake_unrolled (x0 y0 : Z) (offset : Z -> Z * Z) (color : Z -> string) :
  shake 11 x0 y0 offset color 0
  = (concat (map (fun i => [SetGeometry (x0 + (offset i).1) (y0 + (offset i).2);
                            Wait 20])
               [0; 1; 2; 3; 4; 5; 6; 7; 8; 9])
     ++ [SetGeometry x0 y0]) ++ flicker 4 color 0.
Proof.
  rewrite (shake_step 10 x0 y0 offset color 0) by lia. change (0 + 1) with 1.
  rewrite (shake_step 9 x0 y0 offset color 1) by lia. change (1 + 1) with 2.
  rewrite (shake_step 8 x0 y0 offset color 2) by lia. change (2 + 1) with 3.
  rewrite (shake_step 7 x0 y0 offset color 3) by lia. change (3 + 1) with 4.
  rewrite (shake_step 6 x0 y0 offset color 4) by lia. change (4 + 1) with 5.
  rewrite (shake_step 5 x0 y0 offset color 5) by lia. change (5 + 1) with 6.
  rewrite (shake_step 4 x0 y0 offset color 6) by lia. change (6 + 1) with 7.
  rewrite (shake_step 3 x0 y0 offset color 7) by lia. change (7 + 1) with 8.
  rewrite (shake_step 2 x0 y0 offset color 8) by lia. change (8 + 1) with 9.
  rewrite (shake_step 1 x0 y0 offset color 9) by lia. change (9 + 1) with 10.
  reflexivity.
Qed.

End Glitch.

(** X8: no handler ever clears [active_notepad]: once a confirmed Yes has
    opened the notepad, [start_visual_glitch] returns at its first test at
    every later point of the run, so no glitch is shown again; it also does
    nothing while an overlay is open. *)
Theorem glitch_never_after_notepad (st : app_state) (evs : list event)
    (x0 y0 : Z) (offset : Z -> Z * Z) (color : Z -> string) :
  active_notepad st <> None ->
  start_visual_glitch (run evs st).1 x0 y0 offset color = []
  /\ (forall net, alive (run evs st).1 = true ->
        active_notepad (step (ClickYes true net) (run evs st).1).1 <> None)
  /\ (forall st', overlay_open st' = true ->
        start_visual_glitch st' x0 y0 offset color = []).
Proof.
  intros Hn. split; [|split].
  - pose proof (run_notepad_sticky evs st Hn) as H.
    unfold start_visual_glitch, glitch_skipped.
    destruct (active_notepad (run evs st).1); [|contradiction].
    rewrite orb_true_r. reflexivity.
  - intros net _. apply step_notepad_sticky, run_notepad_sticky, Hn.
  - intros st' Hopen. unfold start_visual_glitch, glitch_skipped.
    rewrite Hopen. reflexivity.
Qed.

Lemma glitch_never_after_notepad_witness :
  start_visual_glitch
    (run [WmDeleteWindow 9; ClickNo]
       (step (ClickYes true city_only) (run_app 7 4821 [3; 0; 2; 1]%nat)).1).1
    100 200 (fun _ => (3, -2)) (fun _ => "#004400") = [].
Proof.
  assert (active_notepad
            (step (ClickYes true city_only) (run_app 7 4821 [3; 0; 2; 1]%nat)).1
          <> None) as Hn by (vm_compute; discriminate).
  exact (proj1 (glitch_never_after_notepad _ [WmDeleteWindow 9; ClickNo]
                  100 200 (fun _ => (3, -2)) (fun _ => "#004400") Hn)).
Defined.

(** X9: when the glitch does run, the shake sets the geometry ten times, each
    time to the coordinates read at the start plus the offsets drawn, and
    then sets it to the coordinates read at the start; with offsets between
    -6 and 6 no geometry set is more than 6 pixels away from them on either
    axis; the flicker that follows ends with the background set back to
    [BG], and the static overlay comes last. *)
Theorem shake_returns_window (st : app_state) (x0 y0 : Z)
    (offset : Z -> Z * Z) (color : Z -> string) :
  glitch_skipped st = false ->
  (forall i, 0 <= i < 10 -> -6 <= (offset i).1 <= 6 /\ -6 <= (offset i).2 <= 6) ->
  let log := start_visual_glitch st x0 y0 offset color in
  positions_of log
  = map (fun i => (x0 + (offset i).1, y0 + (offset i).2))
        [0; 1; 2; 3; 4; 5; 6; 7; 8; 9] ++ [(x0, y0)]
  /\ last (positions_of log) = Some (x0, y0)
  /\ Forall (fun p => x0 - 6 <= p.1 <= x0 + 6 /\ y0 - 6 <= p.2 <= y0 + 6)
       (positions_of log)
  /\ exists before, log = before ++ [SetBackground BG; StaticOverlay].
Proof.
  intros Hgo Hoff log. subst log. unfold start_visual_glitch. rewrite Hgo.
  rewrite (shake_unrolled x0 y0 offset color).
  match goal with
  | |- positions_of ?l = ?r /\ _ =>
      assert (positions_of l = r) as Epos by reflexivity
  end.
  split; [exact Epos|]. rewrite Epos. split; [reflexivity|]. split.
  - apply Forall_app. split.
    + apply Forall_fmap, Forall_forall. intros i Hi. cbn.
      assert (0 <= i < 10) as Hr.
      { repeat (apply elem_of_cons in Hi as [->|Hi]; [lia|]).
        apply elem_of_nil in Hi. destruct Hi. }
      specialize (Hoff i Hr). lia.
    + repeat constructor; cbn; lia.
  - match goal with |- exists _, ?A ++ _ = _ => set (moves := A) end.
    exists (moves ++ [SetBackground (color 0); Wait 70; SetBackground (color 1);
                      Wait 70; SetBackground (color 2); Wait 70]).
    rewrite <- (app_assoc moves). reflexivity.
Qed.

Lemma shake_returns_window_witness :
  last (positions_of (start_visual_glitch (run_app 7 4821 [3; 0; 2; 1]%nat)
                        100 200 (fun _ => (3, -2)) (fun _ => "#004400")))
  = Some (100, 200).
Proof.
  apply (shake_returns_window (run_app 7 4821 [3; 0; 2; 1]%nat) 100 200
           (fun _ => (3, -2)) (fun _ => "#004400") eq_refl).
  intros i _. cbn. lia.
Defined.

(** X10: the style that [static_overlay] draws at random never selects one of
    its three drawing branches: for "cyber", "tv" and "bars" no branch of the
    chain matches and nothing is drawn on the overlay canvas, and only
    "image_glitch" has a branch. *)
Theorem static_overlay_never_draws (style : string) :
  style ∈ static_styles ->
  (static_branch_of style = ImageGlitch <-> style = "image_glitch")
  /\ (style <> "image_glitch" -> static_branch_of style = DrawNothing)
  /\ static_branch_of style <> DrawMatrix
  /\ static_branch_of style <> DrawCyberRed
  /\ static_branch_of style <> DrawTvStatic.
Proof.
  intros Hin. unfold static_styles in Hin.
  repeat (apply elem_of_cons in Hin as [->|Hin];
          [repeat split; try discriminate; try reflexivity;
           intros H; try discriminate H; try (destruct H; reflexivity)|]).
  apply elem_of_nil in Hin. destruct Hin.
Qed.

Lemma static_overlay_never_draws_witness :
  static_branch_of "tv" = DrawNothing.
Proof.
  apply (proj1 (proj2 (static_overlay_never_draws "tv"
                         ltac:(repeat constructor)))).
  discriminate.
Defined.

(** ** Warnings and overlays over a whole run *)

Section Accounting.

Lemma quiet_counts (log : list ui_event) :
  quiet log -> count_w log = 0%nat /\ count_o log = 0%nat.
Proof. intros [Hw Ho]. unfold count_w, count_o. rewrite Hw, Ho. auto. Qed.

Lemma attempt_balance (draw : Z) (st : app_state) :
  guard_inv st ->
  (count_w (on_close_attempt draw st).2 + warned st
   = count_o (on_close_attempt draw st).2 + warned (on_close_attempt draw st).1)%nat.
Proof.
  intros Hinv.
  pose proof (attempt_cases draw st Hinv) as (_ & Hat & Hc).
  unfold warned. unfold guard_inv in Hinv.
  destruct (Z.eqb_spec (attempts st) 0) as [E0|E0].
  - destruct Hc as (-> & -> & _). rewrite Hat, E0.
    destruct (overlay_open st); [destruct Hinv as (? & _ & _ & _ & ?); lia|].
    reflexivity.
  - destruct (overlay_open st).
    + destruct Hc as (id & _ & -> & _ & _ & ->). reflexivity.
    + destruct Hc as (id & -> & _ & _ & -> & _).
      destruct Hinv as (_ & _ & _ & [H|H]); [contradiction|].
      rewrite H. reflexivity.
Qed.

Lemma step_balance (e : event) (st : app_state) :
  guard_inv st ->
  (count_w (step e st).2 + warned st
   = count_o (step e st).2 + warned (step e st).1)%nat.
Proof.
  intros Hinv. unfold step. destruct (alive st); [|reflexivity]. cbn [negb].
  destruct e as [draw|iconic draw|id| |idx answers|confirm idx answers code
                |confirm net| |].
  - apply attempt_balance, Hinv.
  - destruct iconic; [|reflexivity]. rewrite on_unmap_iconic.
    apply (attempt_balance draw st Hinv).
  - case_bool_decide as Hin; [|reflexivity].
    pose proof (finish_cases id st Hinv Hin) as (_ & Hop & _ & Hop' & _ & _ & Hat & ->).
    unfold warned. rewrite Hop, Hop', Hat. reflexivity.
  - unfold clue_finder. destruct (pattern_of _ _); reflexivity.
  - destruct (trivia_helper (helpers st) idx answers) as [log|] eqn:E; [|reflexivity].
    apply quiet_trivia in E. apply quiet_counts in E as [Hw Ho].
    cbn. fold (count_w log) (count_o log). rewrite Hw, Ho. reflexivity.
  - pose proof (quiet_counts _ (quiet_emergency (SECRET_CODE st) confirm idx answers code))
      as [Hw Ho].
    destruct (emergency_quiz_flow _ _ _ _ _) as [[|status] log];
      cbn [fst snd] in *; rewrite Hw, Ho; reflexivity.
  - destruct (yes_flow_cases confirm net st) as (city & country & _ & ->).
    destruct confirm; [|reflexivity].
    cbn [guarded fst snd]. unfold warned. cbn [overlay_open attempts].
    destruct (nonempty city); reflexivity.
  - reflexivity.
  - reflexivity.
Qed.

Lemma run_balance (evs : list event) (st : app_state) :
  guard_inv st ->
  (warnings_shown (run evs st).2 + warned st
   = overlays_opened (run evs st).2 + warned (run evs st).1)%nat.
Proof.
  revert st. induction evs as [|e evs IH]; intros st Hinv; [reflexivity|].
  cbn [run].
  pose proof (step_balance e st Hinv) as Hs.
  pose proof (step_guard_inv e st Hinv) as Hinv1.
  destruct (step e st) as [st1 log]. specialize (IH st1 Hinv1).
  destruct (run evs st1) as [st2 logs]. cbn [fst snd] in *.
  unfold warnings_shown, overlays_opened in *. cbn [concat].
  rewrite !List.filter_app, !length_app.
  unfold count_w, count_o in Hs. lia.
Qed.

End Accounting.

(** X11: over any run, warnings and overlays pair up: the number of warnings
    shown equals the number of overlays opened, plus one exactly when a
    warning has been given since the last overlay closed and no overlay is
    open; so no overlay ever opens without a warning of its own before
    it. *)
Theorem warnings_pair_with_overlays (r0 r1 : Z) (shuffled : list nat)
    (evs : list event) :
  let out := run evs (run_app r0 r1 shuffled) in
  warnings_shown out.2 = (overlays_opened out.2 + warned out.1)%nat
  /\ (warned out.1 <= 1)%nat
  /\ (overlays_opened out.2 <= warnings_shown out.2)%nat.
Proof.
  intros out. subst out.
  pose proof (run_balance evs _ (guard_inv_init r0 r1 shuffled)) as H.
  pose proof (run_guard_inv evs _ (guard_inv_init r0 r1 shuffled)) as Hinv.
  change (warned (run_app r0 r1 shuffled)) with 0%nat in H.
  assert (warned (run evs (run_app r0 r1 shuffled)).1 <= 1)%nat as Hw.
  { unfold warned, guard_inv in *.
    destruct (overlay_open (run evs (run_app r0 r1 shuffled)).1); [lia|].
    destruct Hinv as (_ & _ & _ & [-> | ->]); cbn; lia. }
  split; [lia|]. split; [exact Hw | lia].
Qed.

(** ** bring_to_front when Tk calls raise *)

(** X12: [bring_to_front] lets no exception out, whichever of its Tk calls
    raise; it makes at most six calls and the first is always [lift]; when
    nothing raises it lifts the window, sets it topmost, forces the focus and
    schedules the end of topmost; when the first [lift] raises it only tries
    [lift] once more; and the end of topmost is scheduled only when the three
    calls before it succeeded, so a [focus_force] that raises after topmost
    was set leaves the window topmost with no reset scheduled. *)
Theorem bring_to_front_never_raises (raises : nat -> option exn) :
  let out := bring_to_front_tk raises in
  out.1 = Ok tt
  /\ (length out.2 <= 6)%nat
  /\ head out.2 = Some Lift
  /\ ((forall k, (k < 4)%nat -> raises k = None) ->
      out.2 = [Lift; TopmostOn; FocusForce; AfterTopmostOff])
  /\ (raises 0%nat <> None -> out.2 = [Lift; Lift])
  /\ (AfterTopmostOff ∈ out.2 ->
      raises 0%nat = None /\ raises 1%nat = None /\ raises 2%nat = None)
  /\ (raises 0%nat = None -> raises 1%nat = None -> raises 2%nat <> None ->
      TopmostOn ∈ out.2 /\ AfterTopmostOff ∉ out.2).
Proof.
  intros out. subst out.
  unfold bring_to_front_tk, tk_try, tk_seq, tk_do, tk_pass.
  cbn [length Nat.add List.app].
  destruct (raises 0%nat) as [e0|] eqn:E0; cbn [length Nat.add List.app fst snd].
  - destruct (raises 1%nat) as [e1|] eqn:E1; cbn [length Nat.add List.app fst snd head];
      (split; [reflexivity|]); (split; [lia|]); (split; [reflexivity|]);
      (split; [intros H; specialize (H 0%nat ltac:(lia)); congruence|]);
      (split; [reflexivity|]);
      (split; [intros Hin; repeat (apply elem_of_cons in Hin as [Hin|Hin];
                                   [discriminate Hin|]);
               apply elem_of_nil in Hin; destruct Hin
              | intros H; discriminate H]).
  - destruct (raises 1%nat) as [e1|] eqn:E1; cbn [length Nat.add List.app fst snd];
      destruct (raises 2%nat) as [e2|] eqn:E2; cbn [length Nat.add List.app fst snd];
      destruct (raises 3%nat) as [e3|] eqn:E3; cbn [length Nat.add List.app fst snd];
      try (destruct (raises 4%nat) as [e4|] eqn:E4; cbn [length Nat.add List.app fst snd]);
      try (destruct (raises 5%nat) as [e5|] eqn:E5; cbn [length Nat.add List.app fst snd]);
      cbn [head];
      (split; [reflexivity|]); (split; [lia|]); (split; [reflexivity|]);
      (split; [intros H; try reflexivity;
               try (specialize (H 1%nat ltac:(lia)); congruence);
               try (specialize (H 2%nat ltac:(lia)); congruence);
               try (specialize (H 3%nat ltac:(lia)); congruence)|]);
      (split; [intros H; contradiction|]);
      (split; [intros Hin; try (repeat split; congruence);
               repeat (apply elem_of_cons in Hin as [Hin|Hin];
                       [discriminate Hin|]);
               apply elem_of_nil in Hin; destruct Hin|]);
      intros _ H1 H2; try discriminate H1; try contradiction;
      (split; [repeat constructor|]);
      intros Hin; repeat (apply elem_of_cons in Hin as [Hin|Hin];
                          [discriminate Hin|]);
      apply elem_of_nil in Hin; destruct Hin.
Qed.

Lemma bring_to_front_never_raises_witness :
  (bring_to_front_tk (fun _ => None)).2
  = [Lift; TopmostOn; FocusForce; AfterTopmostOff].
Proof.
  apply (proj1 (proj2 (proj2 (proj2 (bring_to_front_never_raises (fun _ => None)))))).
  intros k _. reflexivity.
Defined.

(** ** The rain canvas *)

Section RainFrame.

Variables (h : Z) (inc reset : nat -> Z).

Lemma animate_column_ok (i : nat) (d : list Z) (y : Z) :
  d !! i = Some y ->
  Rain.animate_column h inc reset i d = Ok (<[i := next_drop h inc reset i y]> d).
Proof.
  intros Hy. unfold Rain.animate_column, next_drop. rewrite Hy.
  assert (i < length d)%nat as Hi by (eapply lookup_lt_Some; exact Hy).
  rewrite list_lookup_insert_eq by exact Hi.
  destruct (h + 40 <? y + inc i); [|reflexivity].
  rewrite list_insert_insert_eq. reflexivity.
Qed.

Lemma animate_loop_ok (cols : list nat) (d : list Z) :
  NoDup cols -> Forall (fun i => (i < length d)%nat) cols ->
  exists d', Rain.animate_loop h inc reset cols d = Ok d'
             /\ length d' = length d
             /\ forall i y, d !! i = Some y ->
                  d' !! i = Some (if bool_decide (i ∈ cols)
                                  then next_drop h inc reset i y else y).
Proof.
  revert d. induction cols as [|c cols IH]; intros d Hnd Hall.
  - exists d. split; [reflexivity|]. split; [reflexivity|].
    intros i y Hy. rewrite bool_decide_eq_false_2 by apply not_elem_of_nil.
    exact Hy.
  - apply NoDup_cons in Hnd as [Hc Hnd]. apply Forall_cons in Hall as [Hlt Hall].
    destruct (lookup_lt_is_Some_2 d c Hlt) as [yc Hyc].
    cbn [Rain.animate_loop]. rewrite (animate_column_ok c d yc Hyc).
    destruct (IH (<[c := next_drop h inc reset c yc]> d) Hnd) as (d' & Hr & Hlen & Hget).
    { rewrite length_insert. exact Hall. }
    exists d'. split; [exact Hr|]. rewrite length_insert in Hlen.
    split; [exact Hlen|]. intros i y Hy.
    destruct (decide (i = c)) as [->|Hne].
    + assert (y = yc) as -> by congruence.
      rewrite (Hget c (next_drop h inc reset c yc)).
      * rewrite (bool_decide_eq_false_2 (c ∈ cols)) by exact Hc.
        rewrite bool_decide_eq_true_2 by apply list_elem_of_here. reflexivity.
      * apply list_lookup_insert_eq. exact Hlt.
    + rewrite (Hget i y).
      * destruct (decide (i ∈ cols)) as [Hin|Hnin].
        -- rewrite !bool_decide_eq_true_2; [reflexivity| |exact Hin].
           apply elem_of_cons. right. exact Hin.
        -- rewrite !bool_decide_eq_false_2; [reflexivity| |exact Hnin].
           intros Hin. apply elem_of_cons in Hin as [?|?]; contradiction.
      * rewrite list_lookup_insert_ne by congruence. exact Hy.
Qed.

Lemma animate_loop_short (n : nat) (d : list Z) (k : nat) :
  (length d < k + n)%nat -> (k <= length d)%nat ->
  Rain.animate_loop h inc reset (seq k n) d = Raise IndexError.
Proof.
  revert d k. induction n as [|n IH]; intros d k Hlt Hle; [lia|].
  cbn [seq Rain.animate_loop].
  destruct (d !! k) as [y|] eqn:Hy.
  - rewrite (animate_column_ok k d y Hy).
    apply IH; rewrite length_insert; [lia|].
    apply lookup_lt_Some in Hy. lia.
  - unfold Rain.animate_column. rewrite Hy. reflexivity.
Qed.

End RainFrame.

(** X13: one frame of the rain, on a running canvas whose list of drops has
    one entry per column, moves every drop down by the step drawn for its
    column and restarts at the drawn reset height each drop that would be
    more than 40 below the canvas; the number of drops is unchanged and the
    next frame is scheduled; with resets of at most -20 on a canvas of
    non-negative height no drop is left more than 40 below the canvas.  A
    stopped canvas is left as it is and schedules nothing, and a list of
    drops shorter than the number of columns raises [IndexError]. *)
Theorem rain_frame (inc reset : nat -> Z) (c : Rain.t) :
  (Rain.running c = true -> length (Rain.drops c) = Rain.columns c ->
   exists d',
     Rain.animate inc reset c = Ok (Rain.set_drops d' c, true)
     /\ length d' = Rain.columns c
     /\ (forall i y, Rain.drops c !! i = Some y ->
           d' !! i = Some (next_drop (Rain.height c) inc reset i y))
     /\ (0 <= Rain.height c -> (forall i, reset i <= -20) ->
         Forall (fun y => y <= Rain.height c + 40) d'))
  /\ (Rain.running c = false -> Rain.animate inc reset c = Ok (c, false))
  /\ (Rain.running c = true -> (length (Rain.drops c) < Rain.columns c)%nat ->
      Rain.animate inc reset c = Raise IndexError).
Proof.
  unfold Rain.animate. split; [|split].
  - intros Hrun Hlen. rewrite Hrun. cbn [negb].
    destruct (animate_loop_ok (Rain.height c) inc reset (seq 0 (Rain.columns c))
                (Rain.drops c)) as (d' & Hr & Hl & Hget).
    { apply NoDup_seq. }
    { apply Forall_forall. intros i Hi. apply elem_of_seq in Hi. lia. }
    rewrite Hr. exists d'. split; [reflexivity|]. rewrite Hl.
    split; [exact Hlen|].
    assert (forall i y, Rain.drops c !! i = Some y ->
              d' !! i = Some (next_drop (Rain.height c) inc reset i y)) as Hpt.
    { intros i y Hy. rewrite (Hget i y Hy).
      rewrite bool_decide_eq_true_2; [reflexivity|].
      apply elem_of_seq. apply lookup_lt_Some in Hy. lia. }
    split; [exact Hpt|].
    intros Hh Hreset. apply Forall_lookup. intros i y' Hy'.
    assert (i < length (Rain.drops c))%nat as Hi.
    { apply lookup_lt_Some in Hy'. lia. }
    destruct (lookup_lt_is_Some_2 _ _ Hi) as [y Hy].
    rewrite (Hpt i y Hy) in Hy'. injection Hy' as <-.
    unfold next_drop. specialize (Hreset i).
    destruct (Z.ltb_spec (Rain.height c + 40) (y + inc i)); lia.
  - intros Hrun. rewrite Hrun. reflexivity.
  - intros Hrun Hlen. rewrite Hrun. cbn [negb].
    rewrite (animate_loop_short (Rain.height c) inc reset (Rain.columns c)
               (Rain.drops c) 0) by lia.
    reflexivity.
Qed.

Lemma rain_frame_witness :
  exists d',
    Rain.animate (fun _ => 12) (fun _ => -100)
      {| Rain.height := 480; Rain.speed := 35; Rain.columns := 3;
         Rain.drops := [-5; 510; 100]; Rain.running := true |}
    = Ok (Rain.set_drops d'
            {| Rain.height := 480; Rain.speed := 35; Rain.columns := 3;
               Rain.drops := [-5; 510; 100]; Rain.running := true |}, true)
    /\ Forall (fun y => y <= 480 + 40) d'.
Proof.
  destruct (proj1 (rain_frame (fun _ => 12) (fun _ => -100)
                     {| Rain.height := 480; Rain.speed := 35; Rain.columns := 3;
                        Rain.drops := [-5; 510; 100]; Rain.running := true |})
              eq_refl eq_refl) as (d' & E & _ & _ & Hb).
  exists d'. split; [exact E|]. apply Hb; [cbn; lia | intros i; lia].
Defined.

(** ** The typing notepad *)

Section NotepadProofs.

Lemma string_get_lookup (s : string) (i : nat) :
  String.get i s = list_ascii_of_string s !! i.
Proof.
  revert i. induction s as [|c s IH]; intros i; [destruct i; reflexivity|].
  destruct i as [|i]; [reflexivity|]. cbn. apply IH.
Qed.

Lemma list_of_append (s1 s2 : string) :
  list_ascii_of_string (s1 +:+ s2)
  = list_ascii_of_string s1 ++ list_ascii_of_string s2.
Proof.
  induction s1 as [|c s1 IH]; [reflexivity|].
  change (String c s1 +:+ s2) with (String c (s1 +:+ s2)).
  cbn [list_ascii_of_string]. rewrite IH. reflexivity.
Qed.

Lemma list_of_string_inj (s1 s2 : string) :
  list_ascii_of_string s1 = list_ascii_of_string s2 -> s1 = s2.
Proof.
  intros H. rewrite <- (string_of_list_ascii_of_string s1),
              <- (string_of_list_ascii_of_string s2), H. reflexivity.
Qed.

Lemma notepad_inv_init (c : string) (delay fade_delay : Z) :
  notepad_inv c (Notepad.init c delay fade_delay).1.
Proof.
  unfold notepad_inv. cbn. repeat split; try reflexivity; try lia; discriminate.
Qed.

Ltac np_inv := unfold notepad_inv; cbn [Notepad.content Notepad.idx Notepad.text Notepad.typing_running Notepad.destroyed Notepad.pending Notepad.wm_destroys fst snd]; repeat split; auto; try discriminate; try lia.

Lemma notepad_inv_step (c : string) (e : Notepad.event) (np : Notepad.t) :
  notepad_inv c np -> notepad_inv c (Notepad.step e np).1.
Proof.
  intros Hinv. pose proof Hinv as (Hc & Hidx & Htext & Hrun & Hdone).
  destruct np as [c0 dl fd k tr tx wm cr pd ds].
  cbn [Notepad.content Notepad.idx Notepad.text Notepad.typing_running
       Notepad.destroyed Notepad.pending Notepad.wm_destroys] in Hc, Hidx, Htext, Hrun, Hdone.
  subst c0. unfold Notepad.step. cbn [Notepad.destroyed Notepad.pending Notepad.wm_destroys].
  destruct ds; [exact Hinv|].
  destruct tr.
  - destruct (Hrun eq_refl) as (_ & -> & ->).
    destruct e; [| |].
    + unfold Notepad.type_next_char. cbn [Notepad.idx Notepad.content].
      rewrite string_get_lookup.
      destruct (list_ascii_of_string c !! k) as [ch|] eqn:Hch.
      * pose proof (lookup_lt_Some _ _ _ Hch) as Hlt. rewrite length_list_ascii in Hlt.
        np_inv. rewrite list_of_append, Htext. cbn [list_ascii_of_string].
        symmetry. apply take_S_r. exact Hch.
      * apply lookup_ge_None in Hch. rewrite length_list_ascii in Hch. np_inv.
    + exact Hinv.
    + exact Hinv.
  - specialize (Hdone eq_refl). subst k.
    destruct e.
    + destruct pd as [[| |i]|].
      * unfold Notepad.type_next_char. cbn [Notepad.idx Notepad.content].
        rewrite string_get_lookup.
        assert (list_ascii_of_string c !! String.length c = None) as ->.
        { apply lookup_ge_None. rewrite length_list_ascii. lia. }
        np_inv.
      * unfold Notepad.fade_step. destruct (12 <? 0); np_inv.
      * unfold Notepad.fade_step. destruct (12 <? i); np_inv.
      * exact Hinv.
    + np_inv.
    + destruct wm; np_inv.
Qed.

Lemma notepad_inv_run (c : string) (evs : list Notepad.event) (np : Notepad.t) :
  notepad_inv c np -> notepad_inv c (Notepad.run evs np).
Proof.
  revert np. induction evs as [|e evs IH]; intros np H; [exact H|].
  cbn [Notepad.run]. apply IH, notepad_inv_step, H.
Qed.

Lemma typed_step (c : string) (delay fade_delay : Z) (k : nat) :
  (k < String.length c)%nat ->
  (Notepad.step Notepad.TimerFires (typed c delay fade_delay k)).1
  = typed c delay fade_delay (S k).
Proof.
  intros Hk. unfold Notepad.step, typed. cbn [Notepad.destroyed Notepad.pending].
  unfold Notepad.type_next_char. cbn [Notepad.idx Notepad.content].
  rewrite string_get_lookup.
  destruct (list_ascii_of_string c !! k) as [ch|] eqn:Hch.
  - cbn. f_equal. apply list_of_string_inj.
    rewrite list_of_append, !list_ascii_of_string_of_list_ascii.
    rewrite (take_S_r _ _ _ Hch). reflexivity.
  - apply lookup_ge_None in Hch. rewrite length_list_ascii in Hch. lia.
Qed.

Lemma typed_run (c : string) (delay fade_delay : Z) (n k : nat) :
  (k + n <= String.length c)%nat ->
  Notepad.run (repeat Notepad.TimerFires n) (typed c delay fade_delay k)
  = typed c delay fade_delay (k + n).
Proof.
  revert k. induction n as [|n IH]; intros k Hk.
  - rewrite Nat.add_0_r. reflexivity.
  - cbn [repeat Notepad.run]. rewrite typed_step by lia.
    rewrite IH by lia. f_equal. lia.
Qed.

Lemma typed_finish (c : string) (delay fade_delay : Z) :
  (Notepad.step Notepad.TimerFires (typed c delay fade_delay (String.length c))).1
  = finished c delay fade_delay.
Proof.
  unfold Notepad.step, typed. cbn [Notepad.destroyed Notepad.pending].
  unfold Notepad.type_next_char. cbn [Notepad.idx Notepad.content].
  rewrite string_get_lookup.
  assert (list_ascii_of_string c !! String.length c = None) as ->.
  { apply lookup_ge_None. rewrite length_list_ascii. lia. }
  cbn [fst Notepad.text Notepad.delay Notepad.fade_delay Notepad.wm_destroys
       Notepad.canvas_running Notepad.destroyed].
  unfold finished. f_equal.
  rewrite <- length_list_ascii, firstn_all. apply string_of_list_ascii_of_string.
Qed.

End NotepadProofs.

(** X14: whatever timers fire and however often the user asks to close, the
    notepad shows a prefix of its content, exactly the characters typed so
    far, and it cannot be destroyed before the whole content has been
    typed: a destroyed notepad, like one whose typing has stopped, holds the
    complete text. *)
Theorem notepad_closes_only_when_typed (c : string) (delay fade_delay : Z)
    (evs : list Notepad.event) :
  let np := Notepad.run evs (Notepad.init c delay fade_delay).1 in
  Notepad.content np = c
  /\ (Notepad.idx np <= String.length c)%nat
  /\ list_ascii_of_string (Notepad.text np)
     = take (Notepad.idx np) (list_ascii_of_string c)
  /\ (Notepad.typing_running np = false -> Notepad.text np = c)
  /\ (Notepad.destroyed np = true ->
      Notepad.typing_running np = false /\ Notepad.text np = c).
Proof.
  intros np.
  pose proof (notepad_inv_run c evs _ (notepad_inv_init c delay fade_delay))
    as (Hc & Hidx & Htext & Hrun & Hdone).
  fold np in Hc, Hidx, Htext, Hrun, Hdone.
  assert (Notepad.typing_running np = false -> Notepad.text np = c) as Hfull.
  { intros Hf. apply list_of_string_inj. rewrite Htext, (Hdone Hf).
    rewrite <- length_list_ascii. apply firstn_all. }
  split; [exact Hc|]. split; [exact Hidx|]. split; [exact Htext|].
  split; [exact Hfull|]. intros Hd.
  destruct (Notepad.typing_running np) eqn:Ht.
  - destruct (Hrun eq_refl) as (H & _). congruence.
  - split; [reflexivity | apply Hfull; reflexivity].
Qed.

Lemma notepad_closes_only_when_typed_witness :
  Notepad.content
    (Notepad.run [Notepad.TimerFires; Notepad.CloseButton; Notepad.WmDelete]
       (Notepad.init "Hi" 70 100).1) = "Hi".
Proof.
  exact (proj1 (notepad_closes_only_when_typed "Hi" 70 100
                  [Notepad.TimerFires; Notepad.CloseButton; Notepad.WmDelete])).
Defined.

(** X15: typing takes one timer per character: after [n] timers, for [n] up
    to the length of the content, [n] characters are typed and a close
    request is answered by the "Locked" warning and changes nothing; the next
    timer after the last character ends the typing, and from then on both
    the Close button and the window manager's close request destroy the
    notepad at once, before the fade has run. *)
Theorem notepad_typing_then_close (c : string) (delay fade_delay : Z) :
  let start := (Notepad.init c delay fade_delay).1 in
  (forall n : nat, (n <= String.length c)%nat ->
     let np := Notepad.run (repeat Notepad.TimerFires n) start in
     Notepad.idx np = n /\ Notepad.typing_running np = true
     /\ Notepad.step Notepad.CloseButton np
        = (np, [Notepad.WarnLocked; Notepad.Front])
     /\ Notepad.step Notepad.WmDelete np
        = (np, [Notepad.WarnLocked; Notepad.Front]))
  /\ let np := Notepad.run (repeat Notepad.TimerFires (S (String.length c))) start in
     Notepad.typing_running np = false /\ Notepad.text np = c
     /\ Notepad.destroyed np = false /\ Notepad.wm_destroys np = false
     /\ Notepad.pending np = Some Notepad.FadeBegin
     /\ Notepad.destroyed (Notepad.step Notepad.CloseButton np).1 = true
     /\ Notepad.destroyed (Notepad.step Notepad.WmDelete np).1 = true.
Proof.
  intros start.
  assert (start = typed c delay fade_delay 0) as -> by reflexivity.
  split.
  - intros n Hn np. subst np. rewrite typed_run by lia. cbn [Nat.add].
    repeat split.
  - replace (S (String.length c)) with (String.length c + 1)%nat by lia.
    rewrite repeat_app.
    assert (forall l1 l2 np, Notepad.run (l1 ++ l2) np
                             = Notepad.run l2 (Notepad.run l1 np)) as Happ.
    { induction l1 as [|e l1 IH]; intros l2 np; [reflexivity|]. cbn. apply IH. }
    rewrite Happ, typed_run by lia. cbn [Nat.add repeat Notepad.run].
    rewrite typed_finish. repeat split.
Qed.

Lemma notepad_typing_then_close_witness :
  Notepad.idx (Notepad.run (repeat Notepad.TimerFires 2)
                 (Notepad.init "Hello." 70 100).1) = 2%nat.
Proof.
  apply (proj1 (notepad_typing_then_close "Hello." 70 100) 2%nat).
  cbn. lia.
Defined.

(** ** Answers a provider can send *)

(** X16: two answers that make a provider count as failed although they
    name a country: a "country_name" that is a non-empty string of
    whitespace hides the "country" field, since it is chosen first and then
    stripped to nothing; and a "city" that is truthy but not a string (a
    non-zero number, a list, ...) makes the [strip] call raise, which the
    loop swallows. *)
Theorem provider_discarded (fields : list (string * json)) :
  (forall s,
     dict_lookup fields "country_name" = Some (JString s) ->
     s <> "" -> PyStr.strip s = "" ->
     provider_fails (Body (Some (JObject fields))) = true)
  /\ (forall v,
        dict_lookup fields "city" = Some v -> json_truthy v = true ->
        (forall s, v <> JString s) ->
        try_service (Body (Some (JObject fields))) = Raise AttributeError
        /\ provider_fails (Body (Some (JObject fields))) = true).
Proof.
  assert (try_service (Body (Some (JObject fields)))
          = py_bind (first_field (JObject fields) "city" "region")
              (fun city =>
                 py_bind (first_field (JObject fields) "country_name" "country")
                   (fun country =>
                      if nonempty city && nonempty country
                      then Ok (Some (city, country))
                      else if nonempty country then Ok (Some ("", country))
                           else Ok None))) as Hts by reflexivity.
  split.
  - intros s Hk Hne Hs. unfold provider_fails. rewrite Hts.
    assert (first_field (JObject fields) "country_name" "country" = Ok "") as ->.
    { unfold first_field, json_get. rewrite Hk.
      change (py_bind (Ok (JString s))
                (fun a => if json_truthy a then json_strip a
                          else py_bind (Ok (default JNull (dict_lookup fields "country")))
                                 (fun b => if json_truthy b then json_strip b
                                           else json_strip (JString "")))
              = Ok "").
      cbn [py_bind json_truthy]. apply String.eqb_neq in Hne. rewrite Hne.
      cbn [negb json_strip]. rewrite Hs. reflexivity. }
    destruct (first_field (JObject fields) "city" "region") as [city|e];
      [|reflexivity].
    cbn [py_bind]. unfold nonempty.
    change (String.eqb "" "") with true. cbn [negb]. rewrite andb_false_r.
    reflexivity.
  - intros v Hv Ht Hns.
    assert (try_service (Body (Some (JObject fields))) = Raise AttributeError) as E.
    { rewrite Hts.
      assert (first_field (JObject fields) "city" "region" = Raise AttributeError) as ->.
      { unfold first_field, json_get. rewrite Hv.
        change (py_bind (Ok v)
                  (fun a => if json_truthy a then json_strip a
                            else py_bind (Ok (default JNull (dict_lookup fields "region")))
                                   (fun b => if json_truthy b then json_strip b
                                             else json_strip (JString "")))
                = Raise AttributeError).
        cbn [py_bind]. rewrite Ht.
        destruct v; try reflexivity. destruct (Hns s eq_refl). }
      reflexivity. }
    split; [exact E|]. unfold provider_fails. rewrite E. reflexivity.
Qed.

Lemma provider_discarded_witness :
  provider_fails
    (Body (Some (JObject [("country_name", JString " "); ("country", JString "DE")])))
  = true.
Proof.
  apply (proj1 (provider_discarded
                  [("country_name", JString " "); ("country", JString "DE")]) " ").
  - reflexivity.
  - discriminate.
  - reflexivity.
Defined.
